(** * TickTick automations: duplicating completed tasks

    A shallow embedding of the reconciliation pass of the repository
    (automation.py, automations/duplicate_completed_tasks.py,
    utils/helpers.py, the client variants under utils/ and
    ticktick_automations/utils/, and the pending-task variant under
    ticktick/automations/), and the properties the specification states
    about it.

    Tasks are Python dictionaries decoded from JSON ([Dict[str, Any]] in
    the source), so they are modelled as finite maps from strings to JSON
    values, and the Python operations the code applies to them ([.get],
    truthiness, [in], [.lower()], hashing) are written out with the
    exceptions they raise on values of the wrong shape. *)

From stdpp Require Import gmap strings list fin_maps.
From Stdlib Require Import ZArith Ascii String.

Local Open Scope string_scope.
Local Open Scope list_scope.
Local Open Scope Z_scope.

(** ** JSON values and Python dictionaries *)

(** What [json.load] and [response.json()] produce.  Numbers are the
    integers: no function below computes with a non-integer number. *)
#[warnings="-register-all"]
Inductive json : Type :=
  | JNull
  | JBool (b : bool)
  | JInt (z : Z)
  | JStr (s : string)
  | JList (l : list json)
  | JObj (o : gmap string json).

Abbreviation dict := (gmap string json).

(** The exceptions that the modelled code can raise. *)
Inductive exn : Type :=
  | TickTickAPIError
  | AttributeError
  | TypeError
  | KeyError.

#[global] Instance exn_eq_dec : EqDecision exn.
Proof. solve_decision. Defined.

(** A Python expression either returns a value or raises. *)
Inductive result (A : Type) : Type :=
  | Return (a : A)
  | Raise (e : exn).
Arguments Return {A} a.
Arguments Raise {A} e.

#[global] Instance result_ret : MRet result := @Return.
#[global] Instance result_bind : MBind result := λ A B f r,
  match r with
  | Return a => f a
  | Raise e => Raise e
  end.

(** [d.get(key, default)]; [d.get(key)] is [dict_get d key JNull]. *)
Definition dict_get (d : dict) (key : string) (default : json) : json :=
  match d !! key with
  | Some v => v
  | None => default
  end.

(** [d[key]]. *)
Definition dict_item (d : dict) (key : string) : result json :=
  match d !! key with
  | Some v => Return v
  | None => Raise KeyError
  end.

(** [bool(v)]: None, False, 0, the empty string, list and dict are falsy. *)
Definition truthy (v : json) : bool :=
  match v with
  | JNull => false
  | JBool b => b
  | JInt z => negb (z =? 0)
  | JStr s => negb (String.eqb s "")
  | JList l => match l with [] => false | _ => true end
  | JObj o => negb (bool_decide (dom o = ∅))
  end.

(** ** Strings *)

(** Strings are sequences of 8-bit characters.  [str.lower] on one
    character: the letters A to Z are mapped to a to z, every other
    character is left as it is (Python also maps the letters outside
    ASCII; no statement below depends on which characters [lower]
    changes). *)
Definition lower_ascii (c : ascii) : ascii :=
  let n := N_of_ascii c in
  if ((65 <=? n) && (n <=? 90))%N then ascii_of_N (n + 32) else c.

Fixpoint lower (s : string) : string :=
  match s with
  | EmptyString => EmptyString
  | String c s' => String (lower_ascii c) (lower s')
  end.

(** [needle in hay] on two strings: [needle] occurs as a contiguous
    substring of [hay] (the empty string occurs in every string). *)
Fixpoint is_substring (needle hay : string) : bool :=
  String.prefix needle hay ||
  match hay with
  | EmptyString => false
  | String _ hay' => is_substring needle hay'
  end.

(** [v.lower()] on a value of unknown type: only strings have the method. *)
Definition str_lower (v : json) : result string :=
  match v with
  | JStr s => Return (lower s)
  | _ => Raise AttributeError
  end.

(** [v == tag] for a string [tag]. *)
Definition json_eq_str (tag : string) (v : json) : bool :=
  match v with
  | JStr s => String.eqb s tag
  | _ => false
  end.

(** [tag in container] for a string [tag]: membership in a list, substring
    of a string, key of a dictionary; the other values are not iterable. *)
Definition py_in (tag : string) (container : json) : result bool :=
  match container with
  | JList l => Return (existsb (json_eq_str tag) l)
  | JStr s => Return (is_substring tag s)
  | JObj o => Return (bool_decide (is_Some (o !! tag)))
  | _ => Raise TypeError
  end.

(** [any(gen)] over a generator, consumed lazily: stops at the first true
    element and raises as soon as producing an element raises. *)
Fixpoint py_any (gen : list (result bool)) : result bool :=
  match gen with
  | [] => Return false
  | Return true :: _ => Return true
  | Return false :: rest => py_any rest
  | Raise e :: _ => Raise e
  end.

(** [v[key]] for a string [key]: only a dictionary can be indexed by a
    string. *)
Definition py_getitem (v : json) (key : string) : result json :=
  match v with
  | JObj o => dict_item o key
  | _ => Raise TypeError
  end.

(** [v.get(key, default)] on a value of unknown type. *)
Definition py_get (v : json) (key : string) (default : json) : result json :=
  match v with
  | JObj o => Return (dict_get o key default)
  | _ => Raise AttributeError
  end.

(** [v == n] for an integer literal [n]. *)
Definition py_eq_int (v : json) (n : Z) : bool :=
  match v with
  | JInt z => z =? n
  | JBool b => (if b then 1 else 0) =? n
  | _ => false
  end.

(** The elements [for x in v] goes through: those of a list, the
    characters of a string, the keys of a dictionary (here in the order
    of the finite map, not of insertion). *)
Definition py_iter (v : json) : result (list json) :=
  match v with
  | JList l => Return l
  | JStr s => Return ((λ c, JStr (String c EmptyString)) <$> list_ascii_of_string s)
  | JObj o => Return ((λ kv, JStr kv.1) <$> map_to_list o)
  | _ => Raise TypeError
  end.

(** ** Hashable values: the members of the processed-task set *)

(** The JSON values that can be elements of a Python [set].  [True] and
    [False] hash and compare as 1 and 0. *)
Inductive hashable : Type :=
  | HNone
  | HInt (z : Z)
  | HStr (s : string).

#[global] Instance hashable_eq_dec : EqDecision hashable.
Proof. solve_decision. Defined.

#[global] Instance hashable_countable : Countable hashable.
Proof.
  refine (inj_countable'
    (λ h, match h with
          | HNone => inl ()
          | HInt z => inr (inl z)
          | HStr s => inr (inr s)
          end)
    (λ x, match x with
          | inl () => HNone
          | inr (inl z) => HInt z
          | inr (inr s) => HStr s
          end) _).
  by intros [].
Defined.

(** Hashing a value, as [v in some_set] and [some_set.add(v)] do: lists
    and dictionaries are unhashable. *)
Definition py_hash (v : json) : result hashable :=
  match v with
  | JNull => Return HNone
  | JBool b => Return (HInt (if b then 1 else 0))
  | JInt z => Return (HInt z)
  | JStr s => Return (HStr s)
  | JList _ | JObj _ => Raise TypeError
  end.

(** ** The Task Transformer *)

(** utils/helpers.py, [create_duplicate_task]. *)
Definition create_duplicate_task (original_task : dict) : dict :=
  let new_task : dict :=
    {[ "title" := dict_get original_task "title" JNull;
       "projectId" := dict_get original_task "projectId" JNull;
       "content" := dict_get original_task "content" (JStr "");
       "desc" := dict_get original_task "desc" (JStr "");
       "priority" := dict_get original_task "priority" (JInt 0);
       "tags" := dict_get original_task "tags" (JList []) ]} in
  match original_task !! "items" with
  | Some items => if truthy items then <["items" := items]> new_task else new_task
  | None => new_task
  end.

(** ** The Filter Predicate *)

(** automations/duplicate_completed_tasks.py, [matches_filters].
    [name_filter] is [Optional[str]]; [if name_filter:] is false for
    [None] and for the empty string, [if tag_filters:] for the empty
    list.  Each block yields whether its [return False] was taken. *)
Definition matches_filters
    (task : dict) (name_filter : option string) (tag_filters : list string)
    : result bool :=
  rejected ←
    match name_filter with
    | Some nf =>
        if negb (String.eqb nf "") then
          task_title ← str_lower (dict_get task "title" (JStr ""));
          mret (negb (is_substring (lower nf) task_title))
        else mret false
    | None => mret false
    end;
  if rejected : bool then mret false else
  rejected ←
    match tag_filters with
    | [] => mret false
    | _ :: _ =>
        let task_tags := dict_get task "tags" (JList []) in
        found ← py_any ((λ tag, py_in tag task_tags) <$> tag_filters);
        mret (negb found)
    end;
  if rejected : bool then mret false else mret true.

(** ** The environment of a pass *)

(** The statistics dictionary [stats]. *)
Record Stats : Type := mkStats {
  checked : nat;
  matched : nat;
  duplicated : nat;
  errors : nat;
}.

(** What a pass does that can be observed from outside, in the order it
    happens: a call of the Filter Predicate on a task, a call of
    [client.create_task] with a payload (tagged with the task in whose
    iteration it is made), and a write of the state file. *)
Inductive event : Type :=
  | EvFilter (task : dict)
  | EvCreate (task payload : dict)
  | EvSave (ids : gset hashable).

(** The Remote Task Service Client, a collaborator of the pass: [R] is
    the state of the remote service (and of the clock, from which the
    caller derives [from_date]); each operation returns the declared
    type or raises, and may change the remote state. *)
Record TickTickClient (R : Type) : Type := {
  get_completed_tasks : R → R * result (list dict);
  create_task : dict → R → R * result dict;
}.
Arguments get_completed_tasks {R} _ _.
Arguments create_task {R} _ _ _.

(** The state a pass works on: the remote service, the state file (absent
    or unreadable: [None]; otherwise the set stored under
    ["processed_tasks"]), the in-memory set of processed identifiers, the
    statistics, and the events so far. *)
Record St (R : Type) : Type := mkSt {
  remote : R;
  state_file : option (gset hashable);
  processed_task_ids : gset hashable;
  stats : Stats;
  trace : list event;
}.
Arguments mkSt {R} _ _ _ _ _.
Arguments remote {R} _.
Arguments state_file {R} _.
Arguments processed_task_ids {R} _.
Arguments stats {R} _.
Arguments trace {R} _.

(** ** Stateful computations that may raise *)

Section Monad.
Context {S : Type}.

(** A computation runs on a state and returns the new state with a
    value or an exception; what was done before a [raise] stays done. *)
Definition M (A : Type) : Type := S → S * result A.

Definition ret {A} (a : A) : M A := λ σ, (σ, Return a).

Definition bind {A B} (m : M A) (k : A → M B) : M B := λ σ,
  match m σ with
  | (σ', Return a) => k a σ'
  | (σ', Raise e) => (σ', Raise e)
  end.

Definition lift {A} (r : result A) : M A := λ σ, (σ, r).

Definition read {A} (f : S → A) : M A := λ σ, (σ, Return (f σ)).

(** [try: body  except TickTickAPIError: handler]. *)
Definition try_except_TickTickAPIError {A} (body handler : M A) : M A := λ σ,
  match body σ with
  | (σ', Raise TickTickAPIError) => handler σ'
  | other => other
  end.
End Monad.
Arguments M : clear implicits.

Notation "x <- m ;; k" := (bind m (λ x, k))
  (at level 100, m at next level, right associativity,
   format "'[v' x  <-  m  ;; '/' k ']'").
Notation "m ;; k" := (bind m (λ _, k))
  (at level 100, right associativity,
   format "'[v' m  ;; '/' k ']'").

Section Operations.
Context {R : Type}.

Definition update_stats (f : Stats → Stats) : M (St R) unit := λ σ,
  (mkSt (remote σ) (state_file σ) (processed_task_ids σ) (f (stats σ)) (trace σ),
   Return ()).

Definition set_processed_task_ids (ids : gset hashable) : M (St R) unit := λ σ,
  (mkSt (remote σ) (state_file σ) ids (stats σ) (trace σ), Return ()).

(** [processed_task_ids.add(k)]. *)
Definition processed_add (k : hashable) : M (St R) unit := λ σ,
  (mkSt (remote σ) (state_file σ) ({[k]} ∪ processed_task_ids σ) (stats σ) (trace σ),
   Return ()).

Definition log (ev : event) : M (St R) unit := λ σ,
  (mkSt (remote σ) (state_file σ) (processed_task_ids σ) (stats σ) (trace σ ++ [ev]),
   Return ()).

(** A call of a client operation: it acts on the remote state. *)
Definition call_remote {A} (op : R → R * result A) : M (St R) A := λ σ,
  let '(r', res) := op (remote σ) in
  (mkSt r' (state_file σ) (processed_task_ids σ) (stats σ) (trace σ), res).

(** Writing the state file: whole-file overwrite with the identifiers.
    The ["last_updated"] time stamp is not part of the model, and the
    write is taken to go through ([save_state] catches an error of the
    file system and only logs it). *)
Definition write_state_file (ids : gset hashable) : M (St R) unit := λ σ,
  (mkSt (remote σ) (Some ids) (processed_task_ids σ) (stats σ)
     (trace σ ++ [EvSave ids]),
   Return ()).
End Operations.

Section Loops.
Context {S : Type}.

(** [for x in xs: body(x)]: an exception leaves the loop. *)
Fixpoint for_each {A} (xs : list A) (body : A → M S unit) : M S unit :=
  match xs with
  | [] => ret ()
  | x :: xs' => body x ;; for_each xs' body
  end.

End Loops.

(** [stats["checked"] += 1] and the like. *)
Definition incr_checked (s : Stats) : Stats :=
  mkStats (S (checked s)) (matched s) (duplicated s) (errors s).
Definition incr_matched (s : Stats) : Stats :=
  mkStats (checked s) (S (matched s)) (duplicated s) (errors s).
Definition incr_duplicated (s : Stats) : Stats :=
  mkStats (checked s) (matched s) (S (duplicated s)) (errors s).
Definition incr_errors (s : Stats) : Stats :=
  mkStats (checked s) (matched s) (duplicated s) (S (errors s)).

(** The set read back from the state file: a missing or unreadable file,
    or one without ["processed_tasks"], gives the empty set. *)
Definition stored_ids (file : option (gset hashable)) : gset hashable :=
  match file with
  | Some ids => ids
  | None => ∅
  end.

(** The configuration dictionary built by [load_config]. *)
Record Config : Type := {
  name_filter : option string;
  tag_filters : list string;
}.

(** The hashed identifier of a task, [task.get("id")]. *)
Definition task_key (task : dict) : result hashable :=
  py_hash (dict_get task "id" JNull).

(** ** automations/duplicate_completed_tasks.py *)

Module DuplicateCompletedTasks.
Section WithClient.
Context {R : Type} (client : TickTickClient R) (config : Config).

(** utils/helpers.py, [get_processed_tasks]. *)
Definition get_processed_tasks : M (St R) (gset hashable) :=
  file <- read state_file ;;
  ret (stored_ids file).

(** utils/helpers.py, [save_processed_tasks]. *)
Definition save_processed_tasks (task_ids : gset hashable) : M (St R) unit :=
  write_state_file task_ids.

(** The body of [for task in completed_tasks:] in [run_automation]; a
    [continue] is the end of the body. *)
Definition loop_body (task : dict) : M (St R) unit :=
  update_stats incr_checked ;;
  let task_id := dict_get task "id" JNull in
  (* Skip tasks without valid ID *)
  if negb (truthy task_id) then ret () else
  (* Skip if already processed *)
  k <- lift (py_hash task_id) ;;
  ids <- read processed_task_ids ;;
  if bool_decide (k ∈ ids) then ret () else
  (* Check if task matches filters *)
  log (EvFilter task) ;;
  ok <- lift (matches_filters task (name_filter config) (tag_filters config)) ;;
  if negb ok then processed_add k else
  update_stats incr_matched ;;
  try_except_TickTickAPIError
    (let new_task_data := create_duplicate_task task in
     log (EvCreate task new_task_data) ;;
     new_task <- call_remote (create_task client new_task_data) ;;
     update_stats incr_duplicated ;;
     processed_add k)
    (update_stats incr_errors).

(** [run_automation(client, config, state_file)].  [from_date] is the
    clock reading minus one day; the clock belongs to [R]. *)
Definition run_automation : M (St R) Stats :=
  update_stats (λ _, mkStats 0 0 0 0) ;;
  ids <- get_processed_tasks ;;
  set_processed_task_ids ids ;;
  try_except_TickTickAPIError
    (completed_tasks <- call_remote (get_completed_tasks client) ;;
     for_each completed_tasks loop_body ;;
     ids <- read processed_task_ids ;;
     save_processed_tasks ids)
    (update_stats incr_errors) ;;
  read stats.
End WithClient.
End DuplicateCompletedTasks.

(** ** automation.py *)

Module TaskDuplicator.
(** The fields of the object that do not change after [__init__];
    [self.processed_task_ids] is the [processed_task_ids] of the state. *)
Record self : Type := {
  name_filter : option string;
  tag_filters : list string;
}.

(** [TaskDuplicator._matches_filters]. *)
Definition _matches_filters (self : self) (task : dict) : result bool :=
  rejected ←
    match name_filter self with
    | Some nf =>
        if negb (String.eqb nf "") then
          task_title ← str_lower (dict_get task "title" (JStr ""));
          mret (negb (is_substring (lower nf) task_title))
        else mret false
    | None => mret false
    end;
  if rejected : bool then mret false else
  rejected ←
    match tag_filters self with
    | [] => mret false
    | _ :: _ =>
        let task_tags := dict_get task "tags" (JList []) in
        found ← py_any ((λ tag, py_in tag task_tags) <$> tag_filters self);
        mret (negb found)
    end;
  if rejected : bool then mret false else mret true.

(** [TaskDuplicator._create_duplicate_task]: it does not read [self]. *)
Definition _create_duplicate_task (original_task : dict) : dict :=
  let new_task : dict :=
    {[ "title" := dict_get original_task "title" JNull;
       "projectId" := dict_get original_task "projectId" JNull;
       "content" := dict_get original_task "content" (JStr "");
       "desc" := dict_get original_task "desc" (JStr "");
       "priority" := dict_get original_task "priority" (JInt 0);
       "tags" := dict_get original_task "tags" (JList []) ]} in
  match original_task !! "items" with
  | Some items => if truthy items then <["items" := items]> new_task else new_task
  | None => new_task
  end.

Section WithClient.
Context {R : Type} (client : TickTickClient R).

(** [TaskDuplicator._load_processed_tasks]. *)
Definition _load_processed_tasks : M (St R) (gset hashable) :=
  file <- read state_file ;;
  ret (stored_ids file).

(** [TaskDuplicator._save_processed_tasks]. *)
Definition _save_processed_tasks : M (St R) unit :=
  ids <- read processed_task_ids ;;
  write_state_file ids.

(** [TaskDuplicator.__init__]: [tag_filters or []]. *)
Definition __init__
    (name_filter : option string) (tag_filters : option (list string))
    : M (St R) self :=
  ids <- _load_processed_tasks ;;
  set_processed_task_ids ids ;;
  ret {| name_filter := name_filter;
         tag_filters := match tag_filters with
                        | Some (t :: ts) => t :: ts
                        | _ => []
                        end |}.

(** The body of [for task in completed_tasks:] in
    [process_completed_tasks]. *)
Definition loop_body (self : self) (task : dict) : M (St R) unit :=
  update_stats incr_checked ;;
  let task_id := dict_get task "id" JNull in
  (* Skip if already processed *)
  k <- lift (py_hash task_id) ;;
  ids <- read processed_task_ids ;;
  if bool_decide (k ∈ ids) then ret () else
  (* Check if task matches filters *)
  log (EvFilter task) ;;
  ok <- lift (_matches_filters self task) ;;
  if negb ok then processed_add k else
  update_stats incr_matched ;;
  try_except_TickTickAPIError
    (let new_task_data := _create_duplicate_task task in
     log (EvCreate task new_task_data) ;;
     new_task <- call_remote (create_task client new_task_data) ;;
     update_stats incr_duplicated ;;
     processed_add k)
    (update_stats incr_errors).

(** [TaskDuplicator.process_completed_tasks]. *)
Definition process_completed_tasks (self : self) : M (St R) Stats :=
  update_stats (λ _, mkStats 0 0 0 0) ;;
  try_except_TickTickAPIError
    (completed_tasks <- call_remote (get_completed_tasks client) ;;
     for_each completed_tasks (loop_body self) ;;
     _save_processed_tasks)
    (update_stats incr_errors) ;;
  read stats.
End WithClient.
End TaskDuplicator.

(** ** main.py *)

Module Main.
Section WithClient.
Context {R : Type} (client : TickTickClient R).

(** [run_automation(client, config)]: a new [TaskDuplicator] for every
    pass, so every pass starts from the state file. *)
Definition run_automation (config : Config) : M (St R) Stats :=
  duplicator <- TaskDuplicator.__init__
                  (name_filter config) (Some (tag_filters config)) ;;
  TaskDuplicator.process_completed_tasks client duplicator.
End WithClient.
End Main.

(** ** ticktick/automations/01_duplicate_completed_without_due_date.py *)

Module DuplicateCompletedWithoutDueDate.
(** ticktick/utils/ticktick_api.py: the operations of the client that
    [automation] calls. *)
Record TickTickClient (R : Type) : Type := {
  get_all_pending_tasks : R → R * result (list dict);
  get_task : json → json → R → R * result dict;
  create_task : dict → R → R * result dict;
}.
Arguments get_all_pending_tasks {R} _ _.
Arguments get_task {R} _ _ _ _.
Arguments create_task {R} _ _ _.

(** The remote service and the state file, a JSON object from task
    identifiers to task objects (missing or unreadable: empty).  The
    keys are kept as the program holds them; [json.dump] writes a key
    that is not a string as its string form, so the model of the file
    is exact for string identifiers. *)
Record St (R : Type) : Type := mkSt {
  remote : R;
  state_file : gmap hashable json;
}.
Arguments mkSt {R} _ _.
Arguments remote {R} _.
Arguments state_file {R} _.

(** [duplicate_task_without_due_date]. *)
Definition duplicate_task_without_due_date (original_task : dict) : dict :=
  let new_task : dict :=
    {[ "title" := dict_get original_task "title" JNull;
       "projectId" := dict_get original_task "projectId" JNull;
       "content" := dict_get original_task "content" (JStr "");
       "desc" := dict_get original_task "desc" (JStr "");
       "priority" := dict_get original_task "priority" (JInt 0) ]} in
  match original_task !! "items" with
  | Some items => if truthy items then <["items" := items]> new_task else new_task
  | None => new_task
  end.


Section WithClient.
Context {R : Type} (client : TickTickClient R).

Definition call_remote {A} (op : R → R * result A) : M (St R) A := λ σ,
  let '(r', res) := op (remote σ) in (mkSt r' (state_file σ), res).

(** [load_state] and [save_state] of ticktick/utils/helpers.py. *)
Definition load_state : M (St R) (gmap hashable json) := read state_file.
Definition save_state (state_data : gmap hashable dict) : M (St R) unit := λ σ,
  (mkSt (remote σ) (JObj <$> state_data), Return ()).


(** The body of [for task_id in set(old_state.keys()) - set(new_state.keys()):],
    acting on [new_state]. *)
Definition loop_body (old_state : gmap hashable json) (task_id : hashable)
    (new_state : gmap hashable dict) : M (St R) (gmap hashable dict) :=
  task <- lift (match old_state !! task_id with
                | Some task => Return task
                | None => Raise KeyError
                end) ;;
  project_id <- lift (py_getitem task "projectId") ;;
  id <- lift (py_getitem task "id") ;;
  task <- call_remote (get_task client project_id id) ;;
  (* Check if task was completed *)
  status <- lift (dict_item task "status") ;;
  if py_eq_int status 2 then
    (* logger.info(f"Duplicating {task['title']}") *)
    _ <- lift (dict_item task "title") ;;
    let new_task := duplicate_task_without_due_date task in
    new_task <- call_remote (create_task client new_task) ;;
    (* Mark as processed *)
    new_id <- lift (dict_item new_task "id") ;;
    k <- lift (py_hash new_id) ;;
    ret (<[k := new_task]> new_state)
  else ret new_state.


End WithClient.
End DuplicateCompletedWithoutDueDate.

(** ** ticktick_automations/utils/ticktick_api.py *)

Module TickTickAutomationsApi.
(** What the remote service answers to the two GET requests the client
    makes, [/project] and [/project/{project_id}/data] (by project
    identifier), through [_make_request]: the decoded JSON body, or
    [TickTickAPIError]. *)
Record Http : Type := {
  GET_project : result json;
  GET_project_data : json → result json;
}.

Section WithHttp.
Context (http : Http).

(** [TickTickClient.get_projects]. *)
Definition get_projects : result (list json) :=
  response ← GET_project http;
  match response with
  | JList l => Return l
  | _ => Return []
  end.

(** [TickTickClient.get_project_data]. *)
Definition get_project_data (project_id : json) : result dict :=
  response ← GET_project_data http project_id;
  match response with
  | JObj o => Return o
  | _ => Return ∅
  end.

(** [[proj["id"] for proj in projects]]. *)
Fixpoint project_ids_of (projects : list json) : result (list json) :=
  match projects with
  | [] => Return []
  | proj :: rest =>
      id ← py_getitem proj "id";
      ids ← project_ids_of rest;
      Return (id :: ids)
  end.

(** The inner loop [for task in tasks:] of [get_completed_tasks], acting
    on [completed_tasks]; [print] evaluates its two arguments. *)
Fixpoint tasks_loop (tasks : list json) (completed_tasks : list json)
    : result (list json) :=
  match tasks with
  | [] => Return completed_tasks
  | task :: rest =>
      status ← py_get task "status" (JInt 0);
      (* Filter out only completed tasks *)
      if negb (py_eq_int status 2) then tasks_loop rest completed_tasks
      else
        _ ← py_getitem task "title";
        _ ← py_getitem task "status";
        tasks_loop rest completed_tasks
  end.

(** The outer loop [for project_id in project_ids:]. *)
Fixpoint projects_loop (project_ids : list json) (completed_tasks : list json)
    : result (list json) :=
  match project_ids with
  | [] => Return completed_tasks
  | project_id :: rest =>
      response ← get_project_data project_id;
      tasks ← py_iter (dict_get response "tasks" (JList []));
      completed_tasks ← tasks_loop tasks completed_tasks;
      projects_loop rest completed_tasks
  end.

(** [TickTickClient.get_completed_tasks(project_id, from_date)]:
    [project_id] is [JNull] for [None]; [from_date] is not read. *)
Definition get_completed_tasks (project_id : json) (from_date : option Z)
    : result (list json) :=
  project_ids ←
    match project_id with
    | JNull => projects ← get_projects; project_ids_of projects
    | _ => Return [project_id]
    end;
  let completed_tasks := [] in
  projects_loop project_ids completed_tasks.
End WithHttp.
End TickTickAutomationsApi.

(** ** utils/ticktick_api.py *)

Module UtilsApi.
(** A [datetime]: a point on the time line, and whether it carries a
    time zone.  Comparing one that does with one that does not raises
    [TypeError]. *)
Record datetime : Type := {
  instant : Z;
  aware : bool;
}.

(** [a >= b] on two [datetime]s. *)
Definition datetime_ge (a b : datetime) : result bool :=
  if Bool.eqb (aware a) (aware b) then Return (instant b <=? instant a)
  else Raise TypeError.

(** [s.replace('Z', '+00:00')]. *)
Fixpoint replace_Z (s : string) : string :=
  match s with
  | EmptyString => EmptyString
  | String c s' =>
      if Ascii.eqb c "Z"%char then "+00:00" ++ replace_Z s'
      else String c (replace_Z s')
  end.

Section WithHttp.
(** The answer of the remote service to [GET /task/completed], by the
    [projectId] parameter ([None]: no parameter), and the library
    function [datetime.fromisoformat] ([None]: [ValueError]). *)
Context (GET_task_completed : option json → result json).
Context (fromisoformat : string → option datetime).

(** The body of [try:] for one task: whether the task is kept.  The two
    caught exceptions, [AttributeError] of [.replace] on a value that is
    not a string and [ValueError] of [fromisoformat], skip the task. *)
Definition completed_since (completed_time_str : json) (from_date : datetime)
    : result bool :=
  match completed_time_str with
  | JStr s =>
      match fromisoformat (replace_Z s) with
      | Some completed_time => datetime_ge completed_time from_date
      | None => Return false
      end
  | _ => Return false
  end.

(** The loop [for task in tasks:], acting on [filtered_tasks]. *)
Fixpoint filter_loop (tasks : list json) (from_date : datetime)
    (filtered_tasks : list json) : result (list json) :=
  match tasks with
  | [] => Return filtered_tasks
  | task :: rest =>
      completed_time_str ← py_get task "completedTime" JNull;
      if truthy completed_time_str then
        keep ← completed_since completed_time_str from_date;
        filter_loop rest from_date
          (if keep : bool then filtered_tasks ++ [task] else filtered_tasks)
      else filter_loop rest from_date filtered_tasks
  end.

(** [TickTickClient.get_completed_tasks(project_id, from_date)]. *)
Definition get_completed_tasks (project_id : json) (from_date : option datetime)
    : result (list json) :=
  let params := if truthy project_id then Some project_id else None in
  response ← GET_task_completed params;
  let tasks := match response with JList l => l | _ => [] end in
  (* Filter by completion date if specified *)
  match from_date, tasks with
  | Some from_date, _ :: _ => filter_loop tasks from_date []
  | _, _ => Return tasks
  end.
End WithHttp.
End UtilsApi.

(** * Properties *)

(** ** What the specification says of the Task Transformer *)

(** The payload carries the fields [keys] of the task as they are. *)
Definition copies_verbatim (keys : list string) (payload task : dict) : Prop :=
  Forall (λ key, ∀ v, task !! key = Some v → payload !! key = Some v) keys.

(** The payload has a checklist exactly when the task has one that is not
    empty (Python's truth value, which on a list is non-emptiness), and
    then it is the task's. *)
Definition checklist_iff_non_empty (payload task : dict) : Prop :=
  (is_Some (payload !! "items") ↔
     ∃ items, task !! "items" = Some items ∧ truthy items = true) ∧
  (∀ l, task !! "items" = Some (JList l) →
     (is_Some (payload !! "items") ↔ l ≠ [])) ∧
  (∀ items, payload !! "items" = Some items → task !! "items" = Some items).

(** The payload has none of the fields [keys]. *)
Definition omits (keys : list string) (payload : dict) : Prop :=
  Forall (λ key, payload !! key = None) keys.

Definition schedule_fields : list string := ["dueDate"; "startDate"; "completedTime"].

Definition transformer_spec (transform : dict → dict) (task : dict) : Prop :=
  copies_verbatim ["title"; "projectId"; "content"; "desc"; "priority"; "tags"]
    (transform task) task ∧
  checklist_iff_non_empty (transform task) task ∧
  omits schedule_fields (transform task).

(** The same without the tags. *)
Definition transformer_spec_without_tags (transform : dict → dict) (task : dict) : Prop :=
  copies_verbatim ["title"; "projectId"; "content"; "desc"; "priority"]
    (transform task) task ∧
  checklist_iff_non_empty (transform task) task ∧
  omits schedule_fields (transform task).

(** ** What the specification says of the Filter Predicate *)

(** [needle] occurs in [hay]. *)
Definition substring_of (needle hay : string) : Prop :=
  ∃ pre post, hay = String.append pre (String.append needle post).

(** A task of the data model: its title, when it has one, is a string,
    and its tags, when it has them, are a list of strings.  [title] is
    the title ([""] when the task has none), [tags] are the tags. *)
Definition task_title_is (task : dict) (title : string) : Prop :=
  dict_get task "title" (JStr "") = JStr title.
Definition task_tags_are (task : dict) (tags : list string) : Prop :=
  dict_get task "tags" (JList []) = JList (JStr <$> tags).

(** The name filter is absent: [None], or the empty string that
    [load_config] turns into [None]. *)
Definition name_filter_absent (name_filter : option string) : Prop :=
  name_filter = None ∨ name_filter = Some "".

Definition name_matches (name_filter : option string) (title : string) : Prop :=
  ∃ nf, name_filter = Some nf ∧ substring_of (lower nf) (lower title).

Definition tags_intersect (tag_filters tags : list string) : Prop :=
  ∃ tag, tag ∈ tag_filters ∧ tag ∈ tags.

Definition filter_contract
    (name_filter : option string) (tag_filters : list string)
    (title : string) (tags : list string) : Prop :=
  (name_filter_absent name_filter ∨ name_matches name_filter title) ∧
  (tag_filters = [] ∨ tags_intersect tag_filters tags).

(** ** What one iteration of the loop can do *)

Section Iteration.
Context {R : Type} (client : TickTickClient R).
Context (skips_invalid_id : bool).
Context (filter : dict → result bool) (transform : dict → dict).

(** The state with this iteration's changes. *)
Definition after_iteration (σ : St R) (r : R) (ids : gset hashable)
    (count : Stats → Stats) (evs : list event) : St R :=
  mkSt r (state_file σ) ids (count (incr_checked (stats σ))) (trace σ ++ evs).

(** The outcomes of the body of the loop on [task] from the state [σ],
    for a filter and a transformer: the task has no valid identifier
    (only the script of automations/ looks at that:
    [skips_invalid_id]), its identifier cannot be hashed, it is
    already processed, the filter raises, the filter rejects it, the
    duplicate is created, the creation fails with the error of the
    remote service, or with another exception. *)
Inductive iteration (task : dict) (σ : St R) : St R → result unit → Prop :=
  | iteration_invalid_id :
      skips_invalid_id = true →
      truthy (dict_get task "id" JNull) = false →
      iteration task σ
        (after_iteration σ (remote σ) (processed_task_ids σ) id []) (Return ())
  | iteration_unhashable e :
      task_key task = Raise e →
      iteration task σ
        (after_iteration σ (remote σ) (processed_task_ids σ) id []) (Raise e)
  | iteration_skip k :
      task_key task = Return k →
      k ∈ processed_task_ids σ →
      iteration task σ
        (after_iteration σ (remote σ) (processed_task_ids σ) id []) (Return ())
  | iteration_filter_raises k e :
      task_key task = Return k →
      k ∉ processed_task_ids σ →
      filter task = Raise e →
      iteration task σ
        (after_iteration σ (remote σ) (processed_task_ids σ) id [EvFilter task])
        (Raise e)
  | iteration_rejected k :
      task_key task = Return k →
      k ∉ processed_task_ids σ →
      filter task = Return false →
      iteration task σ
        (after_iteration σ (remote σ) ({[k]} ∪ processed_task_ids σ) id
           [EvFilter task])
        (Return ())
  | iteration_duplicated k r' new_task :
      task_key task = Return k →
      k ∉ processed_task_ids σ →
      filter task = Return true →
      create_task client (transform task) (remote σ) = (r', Return new_task) →
      iteration task σ
        (after_iteration σ r' ({[k]} ∪ processed_task_ids σ)
           (λ s, incr_duplicated (incr_matched s))
           [EvFilter task; EvCreate task (transform task)])
        (Return ())
  | iteration_create_failed k r' :
      task_key task = Return k →
      k ∉ processed_task_ids σ →
      filter task = Return true →
      create_task client (transform task) (remote σ) = (r', Raise TickTickAPIError) →
      iteration task σ
        (after_iteration σ r' (processed_task_ids σ)
           (λ s, incr_errors (incr_matched s))
           [EvFilter task; EvCreate task (transform task)])
        (Return ())
  | iteration_create_raises k r' e :
      task_key task = Return k →
      k ∉ processed_task_ids σ →
      filter task = Return true →
      create_task client (transform task) (remote σ) = (r', Raise e) →
      e ≠ TickTickAPIError →
      iteration task σ
        (after_iteration σ r' (processed_task_ids σ) incr_matched
           [EvFilter task; EvCreate task (transform task)])
        (Raise e).

(** The loop: iterations one after the other, up to the first that
    raises. *)
Inductive iterations : list dict → St R → St R → result unit → Prop :=
  | iterations_nil σ :
      iterations [] σ σ (Return ())
  | iterations_next task tasks σ σ' σ'' r :
      iteration task σ σ' (Return ()) →
      iterations tasks σ' σ'' r →
      iterations (task :: tasks) σ σ'' r
  | iterations_raise task tasks σ σ' e :
      iteration task σ σ' (Raise e) →
      iterations (task :: tasks) σ σ' (Raise e).
End Iteration.

(** An event of the loop over [tasks] from a state whose processed set is
    [ids]: no write of the state file; the filter and [create_task] work
    only on tasks of the list whose identifier is not in [ids], and
    [create_task] only on those the filter accepts, with the payload of
    the transformer. *)
Definition loop_event (filter : dict → result bool) (transform : dict → dict)
    (tasks : list dict) (ids : gset hashable) (ev : event) : Prop :=
  match ev with
  | EvFilter task =>
      task ∈ tasks ∧ ∃ k, task_key task = Return k ∧ k ∉ ids
  | EvCreate task payload =>
      task ∈ tasks ∧ payload = transform task ∧ filter task = Return true ∧
      ∃ k, task_key task = Return k ∧ k ∉ ids
  | EvSave _ => False
  end.

(** The state after an iteration that only counts the task. *)
Definition only_counted {R} (σ : St R) : St R :=
  mkSt (remote σ) (state_file σ) (processed_task_ids σ) (incr_checked (stats σ))
    (trace σ).

(** The state after an iteration on [task] from [σ] in which the filter
    accepted the task and [create_task] failed with the error of the
    remote service, leaving the remote service in [r']. *)
Definition after_failed_create {R} (transform : dict → dict) (task : dict)
    (σ : St R) (r' : R) : St R :=
  mkSt r' (state_file σ) (processed_task_ids σ)
    (incr_errors (incr_matched (incr_checked (stats σ))))
    (trace σ ++ [EvFilter task; EvCreate task (transform task)]).

(** ** The shape of a pass *)

Section PassShape.
Context {R : Type}.

(** The state in which the loop starts: the remote service after the
    fetch, the processed set [ids], the counters at zero. *)
Definition start_of_loop (σ : St R) (r : R) (ids : gset hashable) : St R :=
  mkSt r (state_file σ) ids (mkStats 0 0 0 0) (trace σ).

(** What follows the loop: the state file is written if the loop
    returned; the handler of the outer [try] counts an error if it
    raised [TickTickAPIError]; any other exception leaves the pass. *)
Definition finish_pass (loop : St R * result unit) : St R * result Stats :=
  match loop with
  | (σ, Return _) =>
      (mkSt (remote σ) (Some (processed_task_ids σ)) (processed_task_ids σ)
         (stats σ) (trace σ ++ [EvSave (processed_task_ids σ)]),
       Return (stats σ))
  | (σ, Raise TickTickAPIError) =>
      (mkSt (remote σ) (state_file σ) (processed_task_ids σ)
         (incr_errors (stats σ)) (trace σ),
       Return (incr_errors (stats σ)))
  | (σ, Raise e) => (σ, Raise e)
  end.
End PassShape.

Section PassOf.
Context {R : Type} (client : TickTickClient R).

(** A pass with the loop body [body], from the processed set [ids]:
    both [run_automation] and [process_completed_tasks] have this
    shape (see [duplicate_completed_tasks_pass] and
    [process_completed_tasks_pass]). *)
Definition pass_of (body : dict → M (St R) unit) (ids : gset hashable)
    : M (St R) Stats := λ σ,
  match get_completed_tasks client (remote σ) with
  | (r', Return tasks) => finish_pass (for_each tasks body (start_of_loop σ r' ids))
  | (r', Raise TickTickAPIError) =>
      (mkSt r' (state_file σ) ids (mkStats 0 0 0 1) (trace σ),
       Return (mkStats 0 0 0 1))
  | (r', Raise e) =>
      (mkSt r' (state_file σ) ids (mkStats 0 0 0 0) (trace σ), Raise e)
  end.
End PassOf.

(** An event of a pass from the processed set [ids]: the filter and
    [create_task] work only on tasks whose identifier is not in [ids],
    [create_task] only on a task the filter accepts, with the payload of
    the transformer, and what is written to the state file contains
    [ids]. *)
Definition pass_event (filter : dict → result bool) (transform : dict → dict)
    (ids : gset hashable) (ev : event) : Prop :=
  match ev with
  | EvFilter task => ∃ k, task_key task = Return k ∧ k ∉ ids
  | EvCreate task payload =>
      payload = transform task ∧ filter task = Return true ∧
      ∃ k, task_key task = Return k ∧ k ∉ ids
  | EvSave saved => ids ⊆ saved
  end.

(** The object that [main.run_automation] builds from the configuration. *)
Definition duplicator_of (config : Config) : TaskDuplicator.self :=
  {| TaskDuplicator.name_filter := name_filter config;
     TaskDuplicator.tag_filters := tag_filters config |}.

(** ** Passes one after the other *)

Section Passes.
Context {R : Type}.

(** Between two passes the remote service moves on by itself. *)
Definition with_remote (r : R) (σ : St R) : St R :=
  mkSt r (state_file σ) (processed_task_ids σ) (stats σ) (trace σ).

(** One pass for each state [r] in which the remote service is found;
    the state file goes from one pass to the next, and a pass that
    raises is logged by the caller and followed by the next. *)
Fixpoint run_passes (pass : M (St R) Stats) (rs : list R) (σ : St R) : St R :=
  match rs with
  | [] => σ
  | r :: rs' => run_passes pass rs' (pass (with_remote r σ)).1
  end.
End Passes.

(** [evs] are the events between the states [σ] and [σ']. *)
Definition events_between {R} (σ σ' : St R) (evs : list event) : Prop :=
  trace σ' = trace σ ++ evs.

(** The event is the Filter Predicate or [create_task] at work on a task
    with the identifier [k]. *)
Definition processes (k : hashable) (ev : event) : Prop :=
  match ev with
  | EvFilter task | EvCreate task _ => task_key task = Return k
  | EvSave _ => False
  end.

(** No event of [evs] is the filter or [create_task] at work on a task
    with the identifier [k]. *)
Definition never_processed (k : hashable) (evs : list event) : Prop :=
  Forall (λ ev, ¬ processes k ev) evs.


(** ** The counters *)

(** The task has an identifier that is in [ids]. *)
Definition already_processed (ids : gset hashable) (task : dict) : bool :=
  match task_key task with
  | Return k => bool_decide (k ∈ ids)
  | Raise _ => false
  end.

(** The number of tasks of the list that are not already processed. *)
Definition count_fresh (ids : gset hashable) (tasks : list dict) : nat :=
  List.length (List.filter (λ task, negb (already_processed ids task)) tasks).

(** The counters of [s'] are those of [s] after [n] iterations that
    returned, of which at most [fresh] were on tasks not yet processed. *)
Definition counted_from (s s' : Stats) (n fresh : nat) : Prop :=
  (checked s' = checked s + n ∧
   matched s' + duplicated s + errors s = matched s + duplicated s' + errors s' ∧
   matched s ≤ matched s' ∧ duplicated s ≤ duplicated s' ∧ errors s ≤ errors s' ∧
   matched s' ≤ matched s + fresh)%nat.

(** The counters of a pass over [tasks] from the processed set [ids]. *)
Definition stats_invariant (s : Stats) (tasks : list dict) (ids : gset hashable)
    : Prop :=
  (matched s = duplicated s + errors s ∧
   matched s ≤ checked s ∧
   checked s = List.length tasks ∧
   matched s ≤ count_fresh ids tasks)%nat.

(** ** Input on which a pass does not raise *)

(** A task on which neither hashing the identifier nor the filter raises. *)
Definition well_formed (filter : dict → result bool) (task : dict) : Prop :=
  (∃ k, task_key task = Return k) ∧ (∃ b, filter task = Return b).

(** The client raises nothing but [TickTickAPIError], as [_make_request]
    arranges. *)
Definition raises_only_api_errors {R} (client : TickTickClient R) : Prop :=
  (∀ r r' e, get_completed_tasks client r = (r', Raise e) → e = TickTickAPIError) ∧
  (∀ payload r r' e, create_task client payload r = (r', Raise e) → e = TickTickAPIError).

(** ** A failure of the remote service on one task *)

(** A failure to create the duplicate of [task] is isolated.  The pass
    [pass] from [σ0] fetched [before ++ task :: after] and started its
    loop, with the body [body], from the processed set [ids0]; [σ] is
    the state in which the turn of [task] came; [k] is the identifier of
    [task].  Then: the iteration returns without raising, in the state
    [after_failed_create]: one more error, as many duplicates, the same
    processed set, without [k]; the loop goes on with [after] from that
    state; and if no task of [after] has the identifier [k], the
    identifier is neither in the processed set nor in the state file
    when the pass is over. *)
Definition create_failure_isolated {R} (body : dict → M (St R) unit)
    (pass : M (St R) Stats) (transform : dict → dict)
    (σ0 : St R) (r0 : R) (ids0 : gset hashable)
    (before : list dict) (task : dict) (after : list dict)
    (σ : St R) (k : hashable) (r' : R) : Prop :=
  let σ_failed := after_failed_create transform task σ r' in
  body task σ = (σ_failed, Return ()) ∧
  errors (stats σ_failed) = S (errors (stats σ)) ∧
  duplicated (stats σ_failed) = duplicated (stats σ) ∧
  processed_task_ids σ_failed = processed_task_ids σ ∧
  (k ∉ processed_task_ids σ_failed) ∧
  for_each (before ++ task :: after) body (start_of_loop σ0 r0 ids0) =
    for_each after body σ_failed ∧
  ((∀ t, t ∈ after → task_key t ≠ Return k) →
   ∀ σ' res, pass σ0 = (σ', res) →
     (k ∉ processed_task_ids σ') ∧ k ∉ stored_ids (state_file σ')).

(** ** Completion times *)

(** The completion time of [task] is a string that [fromisoformat]
    reads as a time not before [from_date]. *)
Definition completed_not_before (fromisoformat : string → option UtilsApi.datetime)
    (from_date : UtilsApi.datetime) (task : json) : Prop :=
  ∃ s completed_time,
    py_get task "completedTime" JNull = Return (JStr s) ∧
    fromisoformat (UtilsApi.replace_Z s) = Some completed_time ∧
    UtilsApi.instant from_date ≤ UtilsApi.instant completed_time.

(** ** The scenario of the specification, and remote services to run it with *)

(** The completed task that the remote service reports. *)
Definition milk : dict :=
  {[ "id" := JStr "t1"; "title" := JStr "Zap: buy milk";
     "tags" := JList [JStr "errand"]; "dueDate" := JStr "2025-01-01" ]}.

Definition zap_config : Config :=
  {| name_filter := Some "Zap:"; tag_filters := [] |}.

Definition foo_config : Config :=
  {| name_filter := Some "Foo"; tag_filters := [] |}.

(** A second completed task of the remote service. *)
Definition bread : dict :=
  {[ "id" := JStr "t2"; "title" := JStr "Zap: buy bread" ]}.

(** A remote service that reports the tasks [tasks] and creates every
    task it is asked to; its state counts the tasks created. *)
Definition serving (tasks : list dict) : TickTickClient nat :=
  {| get_completed_tasks := λ n, (n, Return tasks);
     create_task := λ payload n, (S n, Return (<["id" := JStr "new"]> payload)) |}.

(** One whose [create_task] fails. *)
Definition refusing (tasks : list dict) : TickTickClient nat :=
  {| get_completed_tasks := λ n, (n, Return tasks);
     create_task := λ payload n, (n, Raise TickTickAPIError) |}.

(** One that cannot be reached. *)
Definition unreachable : TickTickClient nat :=
  {| get_completed_tasks := λ n, (n, Raise TickTickAPIError);
     create_task := λ payload n, (n, Raise TickTickAPIError) |}.

(** The state before the very first pass, and one in which "t1" has been
    processed. *)
Definition first_run : St nat :=
  mkSt 0%nat None ∅ (mkStats 0 0 0 0) [].
Definition t1_processed : St nat :=
  mkSt 0%nat (Some {[HStr "t1"]}) {[HStr "t1"]} (mkStats 0 0 0 0) [].




(** The remote service of ticktick_automations/ with one project, "p1",
    that holds one task, completed. *)
Definition one_completed_task : TickTickAutomationsApi.Http :=
  {| TickTickAutomationsApi.GET_project :=
       Return (JList [JObj {[ "id" := JStr "p1" ]}]);
     TickTickAutomationsApi.GET_project_data := λ project_id,
       Return (JObj {[ "tasks" := JList [JObj (<["status" := JInt 2]> milk)] ]}) |}.

(** ** More on the Task Transformer *)

(** The fields a payload always has, and the one it may have. *)
Definition copied_fields : list string :=
  ["title"; "projectId"; "content"; "desc"; "priority"; "tags"].

(** The payload has every field of [always], possibly "items", and no
    other field. *)
Definition has_exactly (always : list string) (payload : dict) : Prop :=
  (∀ key, key ∈ always → is_Some (payload !! key)) ∧
  (∀ key, is_Some (payload !! key) → key ∈ always ∨ key = "items").

(** ** Reading the configuration *)

(** [c.isspace()] for a character below 256: the ASCII white space,
    the four separators 28 to 31, NEL and the no-break space. *)
Definition py_isspace (c : ascii) : bool :=
  let n := N_of_ascii c in
  (((9 <=? n) && (n <=? 13)) || ((28 <=? n) && (n <=? 32)) ||
   (n =? 133) || (n =? 160))%N.

(** [s.lstrip()], [s.rstrip()] and [s.strip()]. *)
Fixpoint lstrip (s : string) : string :=
  match s with
  | EmptyString => EmptyString
  | String c s' => if py_isspace c then lstrip s' else s
  end.

Fixpoint rstrip (s : string) : string :=
  match s with
  | EmptyString => EmptyString
  | String c s' =>
      match rstrip s' with
      | EmptyString => if py_isspace c then EmptyString else String c EmptyString
      | String c' r => String c (String c' r)
      end
  end.

Definition strip (s : string) : string := rstrip (lstrip s).

(** [s.split(sep)] for a separator of one character: the pieces between
    the separators, at least one piece. *)
Fixpoint split (sep : ascii) (s : string) : list string :=
  match s with
  | EmptyString => [EmptyString]
  | String c s' =>
      if Ascii.eqb c sep then EmptyString :: split sep s'
      else match split sep s' with
           | piece :: pieces => String c piece :: pieces
           | [] => [String c EmptyString]
           end
  end.

(** [sep.join(pieces)]. *)
Fixpoint join (sep : ascii) (pieces : list string) : string :=
  match pieces with
  | [] => EmptyString
  | [piece] => piece
  | piece :: rest => String.append piece (String sep (join sep rest))
  end.

(** [c in s] for a character. *)
Fixpoint contains_char (c : ascii) (s : string) : bool :=
  match s with
  | EmptyString => false
  | String c' s' => Ascii.eqb c' c || contains_char c s'
  end.

(** [os.getenv(name, default)] on the environment as [load_dotenv]
    leaves it. *)
Definition getenv (env : gmap string string) (name default : string) : string :=
  match env !! name with
  | Some value => value
  | None => default
  end.

(** [not value] for the result of [os.getenv(name)]: unset or empty. *)
Definition unset_or_empty (value : option string) : bool :=
  match value with
  | Some s => String.eqb s ""
  | None => true
  end.

(** The two expressions that both [load_config] share:
    [[tag.strip() for tag in tag_filters_str.split(",") if tag.strip()]]
    and [os.getenv("TASK_NAME_FILTER", "").strip() or None]. *)
Definition parse_tag_filters (tag_filters_str : string) : list string :=
  List.filter (λ tag, negb (String.eqb tag ""))
    (strip <$> split ","%char tag_filters_str).

Definition parse_name_filter (value : string) : option string :=
  let s := strip value in
  if String.eqb s "" then None else Some s.

(** automations/duplicate_completed_tasks.py, [load_config]: the
    configuration, or [None] for the [ValueError] of a missing
    credential. *)
Module DuplicateCompletedTasksConfig.
Record t : Type := {
  client_id : string;
  client_secret : string;
  access_token : string;
  filters : Config;
}.

Definition load_config (env : gmap string string) : option t :=
  let client_id := env !! "TICKTICK_CLIENT_ID" in
  let client_secret := env !! "TICKTICK_CLIENT_SECRET" in
  let access_token := env !! "TICKTICK_ACCESS_TOKEN" in
  if unset_or_empty client_id || unset_or_empty client_secret then None else
  if unset_or_empty access_token then None else
  (* Parse tag filters *)
  let tag_filters_str := getenv env "TASK_FILTER_TAGS" "" in
  let tag_filters := parse_tag_filters tag_filters_str in
  (* Get name filter *)
  let name_filter := parse_name_filter (getenv env "TASK_NAME_FILTER" "") in
  Some {| client_id := default "" client_id;
          client_secret := default "" client_secret;
          access_token := default "" access_token;
          filters := {| name_filter := name_filter; tag_filters := tag_filters |} |}.
End DuplicateCompletedTasksConfig.

(** main.py, [load_config]; [py_int] is Python's [int] on a string
    ([None]: [ValueError]). *)
Module MainConfig.
Record t : Type := {
  access_token : string;
  filters : Config;
  polling_interval : Z;
}.

Definition load_config (py_int : string → option Z) (env : gmap string string)
    : option t :=
  let access_token := env !! "TICKTICK_ACCESS_TOKEN" in
  if unset_or_empty access_token then None else
  (* Parse tag filters *)
  let tag_filters_str := getenv env "TASK_FILTER_TAGS" "" in
  let tag_filters := parse_tag_filters tag_filters_str in
  (* Get name filter *)
  let name_filter := parse_name_filter (getenv env "TASK_NAME_FILTER" "") in
  (* Get polling interval *)
  let polling_interval :=
    match py_int (getenv env "POLLING_INTERVAL" "300") with
    | Some n => n
    | None => 300
    end in
  Some {| access_token := default "" access_token;
          filters := {| name_filter := name_filter; tag_filters := tag_filters |};
          polling_interval := polling_interval |}.
End MainConfig.

(** A tag as [load_config] produces them: not empty, without white
    space at either end, without a comma. *)
Definition clean_tag (tag : string) : Prop :=
  tag ≠ "" ∧ strip tag = tag ∧ contains_char ","%char tag = false.

(** An environment with the three credentials and both filters. *)
Definition full_env : gmap string string :=
  {[ "TICKTICK_CLIENT_ID" := "id"; "TICKTICK_CLIENT_SECRET" := "secret";
     "TICKTICK_ACCESS_TOKEN" := "token";
     "TASK_FILTER_TAGS" := "errand,home"; "TASK_NAME_FILTER" := " Zap: " ]}.

(** ** The state file as JSON *)

(** What is on disk under the name of the state file: nothing, something
    that [json.load] cannot read, or a JSON value. *)
Inductive file_content : Type :=
  | Missing
  | Unreadable
  | Holds (v : json).

(** A member of the set as [json.dump] writes it. *)
Definition to_json (h : hashable) : json :=
  match h with
  | HNone => JNull
  | HInt z => JInt z
  | HStr s => JStr s
  end.

(** [set(v)]: the elements of [v], each hashed. *)
Fixpoint hash_all (elements : list json) : result (gset hashable) :=
  match elements with
  | [] => Return ∅
  | v :: rest =>
      k ← py_hash v;
      ids ← hash_all rest;
      Return ({[k]} ∪ ids)
  end.

Definition py_set (v : json) : result (gset hashable) :=
  elements ← py_iter v;
  hash_all elements.

(** The dictionary that both scripts write: the identifiers in the
    order of [list(task_ids)] (Python fixes none; here that of the
    finite set), and the time of the write. *)
Definition processed_tasks_state (task_ids : gset hashable) (now : string) : dict :=
  {[ "processed_tasks" := JList (to_json <$> elements task_ids);
     "last_updated" := JStr now ]}.

(** utils/helpers.py, on the content of the file. *)
Module Helpers.
(** [load_state]: what [json.load] returns, [{}] for a file that is
    missing or cannot be read. *)
Definition load_state (content : file_content) : json :=
  match content with
  | Missing => JObj ∅
  | Unreadable => JObj ∅
  | Holds v => v
  end.

(** [save_state], for a write that goes through. *)
Definition save_state (state_data : dict) : file_content :=
  Holds (JObj state_data).

(** [get_processed_tasks]. *)
Definition get_processed_tasks (content : file_content) : result (gset hashable) :=
  let state := load_state content in
  processed_tasks ← py_get state "processed_tasks" (JList []);
  py_set processed_tasks.

(** [save_processed_tasks]; [now] is the clock reading. *)
Definition save_processed_tasks (task_ids : gset hashable) (now : string)
    : file_content :=
  save_state (processed_tasks_state task_ids now).
End Helpers.

(** automation.py, the two methods of [TaskDuplicator] that touch the
    file, on its content. *)
Module TaskDuplicatorFile.
(** [_load_processed_tasks]: every exception inside the [try] is caught
    and gives the empty set. *)
Definition _load_processed_tasks (content : file_content) : gset hashable :=
  match content with
  | Missing => ∅
  | Unreadable => ∅
  | Holds data =>
      match
        (processed_tasks ← py_get data "processed_tasks" (JList []);
         py_set processed_tasks)
      with
      | Return ids => ids
      | Raise _ => ∅
      end
  end.

(** [_save_processed_tasks], for a write that goes through. *)
Definition _save_processed_tasks (processed_task_ids : gset hashable) (now : string)
    : file_content :=
  Holds (JObj (processed_tasks_state processed_task_ids now)).
End TaskDuplicatorFile.

(** A state file that lists the identifiers [ids], in that order. *)
Definition listing (ids : list hashable) (now : string) : file_content :=
  Holds (JObj {[ "processed_tasks" := JList (to_json <$> ids);
                 "last_updated" := JStr now ]}).

(** ** More on the events of a pass *)

(** The event is a write of the state file. *)
Definition is_save (ev : event) : Prop :=
  match ev with
  | EvSave _ => True
  | _ => False
  end.

(** The tasks for which [create_task] was called, in the order of the
    calls. *)
Fixpoint created (evs : list event) : list dict :=
  match evs with
  | [] => []
  | EvCreate task _ :: rest => task :: created rest
  | _ :: rest => created rest
  end.

(** The loop leaves [task] alone from the processed set [ids]: its
    identifier is in the set, or (for the script that looks at it) it
    has no valid identifier. *)
Definition accounted (skips_invalid_id : bool) (ids : gset hashable) (task : dict)
    : Prop :=
  (skips_invalid_id = true ∧ truthy (dict_get task "id" JNull) = false) ∨
  (∃ k, task_key task = Return k ∧ k ∈ ids).

(** What the loop did with [task] between [σ] and [σ']: the task is
    accounted for in the processed set of [σ'], or [create_task] was
    called for it and an error was counted. *)
Definition attended {R} (skips_invalid_id : bool) (transform : dict → dict)
    (evs : list event) (σ σ' : St R) (task : dict) : Prop :=
  accounted skips_invalid_id (processed_task_ids σ') task ∨
  (EvCreate task (transform task) ∈ evs ∧
   (errors (stats σ) < errors (stats σ'))%nat).

(** The three passes, by name: [run_automation] of automations/,
    [run_automation] of main.py, and [process_completed_tasks] of an
    object built by [duplicator_of]. *)
Inductive mode_a_pass : Type :=
  | script_pass
  | main_pass
  | method_pass.

Section ModeA.
Context {R : Type} (client : TickTickClient R) (config : Config).

Definition run_pass (p : mode_a_pass) : M (St R) Stats :=
  match p with
  | script_pass => DuplicateCompletedTasks.run_automation client config
  | main_pass => Main.run_automation client config
  | method_pass =>
      TaskDuplicator.process_completed_tasks client (duplicator_of config)
  end.

(** The record a pass starts from: the state file, or the set of the
    object. *)
Definition record_at_start (p : mode_a_pass) (σ : St R) : gset hashable :=
  match p with
  | script_pass | main_pass => stored_ids (state_file σ)
  | method_pass => processed_task_ids σ
  end.

(** Whether the pass skips a task without a valid identifier, its
    filter and its transformer. *)
Definition skips_of (p : mode_a_pass) : bool :=
  match p with
  | script_pass => true
  | main_pass | method_pass => false
  end.

Definition body_of (p : mode_a_pass) : dict → M (St R) unit :=
  match p with
  | script_pass => DuplicateCompletedTasks.loop_body client config
  | main_pass | method_pass => TaskDuplicator.loop_body client (duplicator_of config)
  end.
End ModeA.

(** ** The record of the pending-task variant *)



(** * Proofs *)

(** ** The Task Transformer *)

Lemma truthy_list l : truthy (JList l) = true ↔ l ≠ [].
Proof. destruct l; simpl; split; congruence. Qed.

(** The three ways through a transformer: a checklist that is kept, one
    that is dropped, none. *)
Ltac transformer_cases task :=
  let items := fresh "items" in
  let Hitems := fresh "Hitems" in
  let Htruthy := fresh "Htruthy" in
  destruct (task !! "items") as [items|] eqn:Hitems;
  [destruct (truthy items) eqn:Htruthy|].

Ltac each_key := repeat apply Forall_cons_2; try apply Forall_nil_2.

Lemma checklist_cases (new_task payload task : dict) :
  new_task !! "items" = None →
  payload = match task !! "items" with
            | Some items => if truthy items then <["items" := items]> new_task else new_task
            | None => new_task
            end →
  checklist_iff_non_empty payload task.
Proof.
  intros Hnew ->. unfold checklist_iff_non_empty.
  transformer_cases task.
  - rewrite lookup_insert_eq. split_and!.
    + split; eauto.
    + intros l [= ->]. apply truthy_list in Htruthy. split; eauto.
    + congruence.
  - rewrite Hnew. split_and!.
    + split; [by intros [? ?]|]. intros (? & [= <-] & ?). congruence.
    + intros l [= ->]. split; [by intros [? ?]|].
      intros Hl. apply truthy_list in Hl. congruence.
    + congruence.
  - rewrite Hnew. split_and!.
    + split; [by intros [? ?]|]. by intros (? & ? & ?).
    + congruence.
    + congruence.
Qed.

Lemma create_duplicate_task_spec task : transformer_spec create_duplicate_task task.
Proof.
  split_and!.
  - unfold copies_verbatim, create_duplicate_task.
    each_key; intros v Hv; unfold dict_get; rewrite Hv;
      transformer_cases task; reflexivity.
  - eapply checklist_cases; [|reflexivity]. reflexivity.
  - unfold omits, schedule_fields, create_duplicate_task.
    each_key; transformer_cases task; reflexivity.
Qed.

Lemma _create_duplicate_task_spec task :
  transformer_spec TaskDuplicator._create_duplicate_task task.
Proof.
  split_and!.
  - unfold copies_verbatim, TaskDuplicator._create_duplicate_task.
    each_key; intros v Hv; unfold dict_get; rewrite Hv;
      transformer_cases task; reflexivity.
  - eapply checklist_cases; [|reflexivity]. reflexivity.
  - unfold omits, schedule_fields, TaskDuplicator._create_duplicate_task.
    each_key; transformer_cases task; reflexivity.
Qed.

(** The two transformers of the completed-tasks mode are one function. *)
Lemma _create_duplicate_task_eq task :
  TaskDuplicator._create_duplicate_task task = create_duplicate_task task.
Proof. reflexivity. Qed.

(** What a field that the task lacks becomes in the payload. *)
Lemma create_duplicate_task_defaults task :
  let payload := create_duplicate_task task in
  payload !! "title" = Some (dict_get task "title" JNull) ∧
  payload !! "projectId" = Some (dict_get task "projectId" JNull) ∧
  payload !! "content" = Some (dict_get task "content" (JStr "")) ∧
  payload !! "desc" = Some (dict_get task "desc" (JStr "")) ∧
  payload !! "priority" = Some (dict_get task "priority" (JInt 0)) ∧
  payload !! "tags" = Some (dict_get task "tags" (JList [])).
Proof.
  unfold create_duplicate_task. cbv zeta.
  split_and!; transformer_cases task; reflexivity.
Qed.

Lemma duplicate_task_without_due_date_spec task :
  transformer_spec_without_tags
    DuplicateCompletedWithoutDueDate.duplicate_task_without_due_date task.
Proof.
  split_and!.
  - unfold copies_verbatim,
      DuplicateCompletedWithoutDueDate.duplicate_task_without_due_date.
    each_key; intros v Hv; unfold dict_get; rewrite Hv;
      transformer_cases task; reflexivity.
  - eapply checklist_cases; [|reflexivity]. reflexivity.
  - unfold omits, schedule_fields,
      DuplicateCompletedWithoutDueDate.duplicate_task_without_due_date.
    each_key; transformer_cases task; reflexivity.
Qed.

Lemma duplicate_task_without_due_date_no_tags task :
  DuplicateCompletedWithoutDueDate.duplicate_task_without_due_date task !! "tags" = None.
Proof.
  unfold DuplicateCompletedWithoutDueDate.duplicate_task_without_due_date.
  transformer_cases task; reflexivity.
Qed.

(** C3, as it stands, fails on the transformer of the pending-task
    variant: a task with the tag "errand" gives a payload without tags. *)
Lemma transformer_pending_variant_drops_tags :
  ¬ transformer_spec
      DuplicateCompletedWithoutDueDate.duplicate_task_without_due_date
      {[ "id" := JStr "t1"; "title" := JStr "Zap: buy milk";
         "tags" := JList [JStr "errand"] ]}.
Proof.
  intros (Hcopy & _ & _).
  unfold copies_verbatim in Hcopy.
  rewrite !Forall_cons in Hcopy.
  destruct Hcopy as (_ & _ & _ & _ & _ & Htags & _).
  specialize (Htags (JList [JStr "errand"]) eq_refl).
  rewrite duplicate_task_without_due_date_no_tags in Htags. discriminate.
Qed.

(** C3 (amended): [create_duplicate_task] and
    [TaskDuplicator._create_duplicate_task] give, for every task, a
    payload with the task's title, project id, content, description,
    priority and tags as they are, with the checklist exactly when the
    task has a non-empty one, and without due date, start date and
    completion time.  [duplicate_task_without_due_date] of the
    pending-task variant does the same except for the tags, of which its
    payload has none. *)
Theorem transformer_payload (task : dict) :
  transformer_spec create_duplicate_task task ∧
  transformer_spec TaskDuplicator._create_duplicate_task task ∧
  transformer_spec_without_tags
    DuplicateCompletedWithoutDueDate.duplicate_task_without_due_date task ∧
  DuplicateCompletedWithoutDueDate.duplicate_task_without_due_date task !! "tags" = None.
Proof.
  split_and!.
  - apply create_duplicate_task_spec.
  - apply _create_duplicate_task_spec.
  - apply duplicate_task_without_due_date_spec.
  - apply duplicate_task_without_due_date_no_tags.
Qed.

(** ** The Filter Predicate *)

Lemma append_cons c s t :
  String.append (String c s) t = String c (String.append s t).
Proof. reflexivity. Qed.

Lemma prefix_spec needle hay :
  String.prefix needle hay = true ↔ ∃ post, hay = String.append needle post.
Proof.
  revert hay. induction needle as [|c needle IH]; intros hay.
  - split; [intros _; by exists hay|by destruct hay].
  - destruct hay as [|d hay]; cbn.
    + split; [discriminate|]. by intros [post ?].
    + setoid_rewrite append_cons.
      destruct (ascii_dec c d) as [->|Hne].
      * rewrite IH. split; intros [post Hpost]; exists post; congruence.
      * split; [discriminate|]. intros [post [= ? ?]]. congruence.
Qed.

Lemma is_substring_nil needle :
  is_substring needle EmptyString = String.prefix needle EmptyString.
Proof. unfold is_substring. apply orb_false_r. Qed.

Lemma is_substring_cons needle d hay :
  is_substring needle (String d hay) =
  String.prefix needle (String d hay) || is_substring needle hay.
Proof. reflexivity. Qed.

Lemma is_substring_spec needle hay :
  is_substring needle hay = true ↔ substring_of needle hay.
Proof.
  unfold substring_of. induction hay as [|d hay IH].
  - rewrite is_substring_nil, prefix_spec. split.
    + intros [post Hpost]. by exists EmptyString, post.
    + intros (pre & post & Hpre). destruct pre; [by exists post|discriminate].
  - rewrite is_substring_cons, orb_true_iff, prefix_spec, IH. split.
    + intros [[post Hpost]|(pre & post & Hpre)].
      * by exists EmptyString, post.
      * exists (String d pre), post. by rewrite append_cons, Hpre.
    + intros (pre & post & Hpre). destruct pre as [|c pre].
      * left. by exists post.
      * right. exists pre, post. rewrite append_cons in Hpre. congruence.
Qed.

Lemma json_eq_str_elem tag tags :
  existsb (json_eq_str tag) (JStr <$> tags) = true ↔ tag ∈ tags.
Proof.
  induction tags as [|t tags IH]; simpl.
  - split; [discriminate|]. by intros ?%elem_of_nil.
  - rewrite orb_true_iff, IH, elem_of_cons, String.eqb_eq.
    split; (intros [?|?]; [left|right]); done.
Qed.

(** [any(tag in task_tags for tag in tag_filters)] on a list of tags. *)
Lemma py_any_in_list tag_filters l :
  py_any ((λ tag, py_in tag (JList l)) <$> tag_filters) =
  Return (existsb (λ tag, existsb (json_eq_str tag) l) tag_filters).
Proof.
  induction tag_filters as [|t ts IH]; simpl; [done|].
  destruct (existsb (json_eq_str t) l); simpl; [done|]. apply IH.
Qed.

Lemma any_tag_intersects tag_filters tags :
  existsb (λ tag, existsb (json_eq_str tag) (JStr <$> tags)) tag_filters = true ↔
  tags_intersect tag_filters tags.
Proof.
  unfold tags_intersect. induction tag_filters as [|t ts IH]; simpl.
  - split; [discriminate|]. by intros (? & ?%elem_of_nil & _).
  - rewrite orb_true_iff, IH, json_eq_str_elem. split.
    + intros [Ht|(tag & Hin & Htag)].
      * exists t. split; [apply elem_of_cons; by left|done].
      * exists tag. split; [apply elem_of_cons; by right|done].
    + intros (tag & [->|Hin]%elem_of_cons & Htag); [by left|right; eauto].
Qed.

(** The method of [TaskDuplicator] is the function of the script. *)
Lemma _matches_filters_eq self task :
  TaskDuplicator._matches_filters self task =
  matches_filters task (TaskDuplicator.name_filter self) (TaskDuplicator.tag_filters self).
Proof. reflexivity. Qed.

(** Without filters the task is not looked at. *)
Lemma matches_filters_no_filter task name_filter :
  name_filter_absent name_filter →
  matches_filters task name_filter [] = Return true.
Proof. by intros [-> | ->]. Qed.

Lemma tag_block tag_filters tags :
  ∃ b,
    match tag_filters with
    | [] => mret false
    | _ :: _ =>
        found ← py_any ((λ tag, py_in tag (JList (JStr <$> tags))) <$> tag_filters);
        mret (negb found)
    end = Return (negb b) ∧
    (b = true ↔ tag_filters = [] ∨ tags_intersect tag_filters tags).
Proof.
  destruct tag_filters as [|t ts] eqn:Htf.
  - exists true. split; [done|]. split; [by left|done].
  - rewrite <- Htf, py_any_in_list. eexists. split; [reflexivity|].
    rewrite any_tag_intersects. split; [by right|].
    intros [?|?]; [congruence|done].
Qed.

Lemma name_block name_filter title :
  ∃ b,
    match name_filter with
    | Some nf =>
        if negb (nf =? "")%string
        then task_title ← str_lower (JStr title);
             mret (negb (is_substring (lower nf) task_title))
        else mret false
    | None => mret false
    end = Return (negb b) ∧
    (b = true ↔ name_filter_absent name_filter ∨ name_matches name_filter title).
Proof.
  unfold name_filter_absent, name_matches.
  destruct name_filter as [nf|].
  - destruct (String.eqb_spec nf "") as [->|Hne]; simpl.
    + exists true. split; [done|]. split; [by left; right|done].
    + eexists. split; [reflexivity|]. rewrite is_substring_spec.
      split; [by eauto|]. intros [[?|?]|(? & [= <-] & ?)]; congruence.
  - exists true. split; [done|]. split; [by left; left|done].
Qed.

Lemma matches_filters_contract task name_filter tag_filters title tags :
  task_title_is task title →
  task_tags_are task tags →
  ∃ b, matches_filters task name_filter tag_filters = Return b ∧
       (b = true ↔ filter_contract name_filter tag_filters title tags).
Proof.
  unfold task_title_is, task_tags_are, filter_contract, matches_filters.
  intros -> ->.
  destruct (name_block name_filter title) as (bn & -> & Hbn).
  destruct (tag_block tag_filters tags) as (bt & -> & Hbt).
  exists (bn && bt). split.
  - by destruct bn, bt.
  - rewrite andb_true_iff. tauto.
Qed.

(** C2: the Filter Predicate is a function of the task and the two
    filters alone, and on every task of the data model (the title, when
    present, a string; the tags, when present, a list of strings) it
    returns, without raising, true exactly when (the name filter is
    absent or its lower-case form occurs in the lower-case title) and
    (the tag filter is absent or one of its tags is a tag of the task).
    The method of [TaskDuplicator] is the same function, and with both
    filters absent the answer is true for every dictionary at all. *)
Theorem filter_predicate_contract
    (task : dict) (name_filter : option string) (tag_filters : list string)
    (title : string) (tags : list string) :
  task_title_is task title →
  task_tags_are task tags →
  (∃ b, matches_filters task name_filter tag_filters = Return b ∧
        (b = true ↔ filter_contract name_filter tag_filters title tags)) ∧
  TaskDuplicator._matches_filters
    {| TaskDuplicator.name_filter := name_filter;
       TaskDuplicator.tag_filters := tag_filters |} task =
    matches_filters task name_filter tag_filters ∧
  (∀ (any_task : dict) (absent : option string),
     name_filter_absent absent →
     matches_filters any_task absent [] = Return true).
Proof.
  intros Htitle Htags. split_and!.
  - by apply matches_filters_contract.
  - reflexivity.
  - intros any_task absent. apply matches_filters_no_filter.
Qed.

Lemma filter_predicate_contract_witness :
  let task : dict :=
    {[ "id" := JStr "t1"; "title" := JStr "Zap: buy milk";
       "tags" := JList [JStr "errand"] ]} in
  task_title_is task "Zap: buy milk" ∧
  task_tags_are task ["errand"] ∧
  ∃ b, matches_filters task (Some "Zap:") ["home"; "errand"] = Return b ∧
       (b = true ↔
        filter_contract (Some "Zap:") ["home"; "errand"] "Zap: buy milk" ["errand"]).
Proof.
  intros task.
  assert (Htitle : task_title_is task "Zap: buy milk") by reflexivity.
  assert (Htags : task_tags_are task ["errand"]) by reflexivity.
  split; [exact Htitle|]. split; [exact Htags|].
  exact (proj1 (filter_predicate_contract task (Some "Zap:") ["home"; "errand"]
                  "Zap: buy milk" ["errand"] Htitle Htags)).
Defined.

(** ** One iteration *)

Ltac run_monad :=
  unfold bind, ret, lift, read, update_stats, processed_add, log, call_remote,
    set_processed_task_ids, write_state_file, try_except_TickTickAPIError;
  cbn [fst snd remote state_file processed_task_ids stats trace].

Section IterationFacts.
Context {R : Type} (client : TickTickClient R).

Lemma duplicate_completed_tasks_iteration config task σ σ' r :
  DuplicateCompletedTasks.loop_body client config task σ = (σ', r) →
  iteration client true
    (λ t, matches_filters t (name_filter config) (tag_filters config))
    create_duplicate_task task σ σ' r.
Proof.
  unfold DuplicateCompletedTasks.loop_body. run_monad.
  destruct (truthy (dict_get task "id" JNull)) eqn:Hid; cbn [negb].
  2: { intros [= <- <-]. rewrite <- (app_nil_r (trace σ)). by apply iteration_invalid_id. }
  destruct (py_hash (dict_get task "id" JNull)) as [k|e] eqn:Hk.
  2: { intros [= <- <-]. rewrite <- (app_nil_r (trace σ)). by apply iteration_unhashable. }
  case_bool_decide as Hin.
  { intros [= <- <-]. rewrite <- (app_nil_r (trace σ)). by eapply iteration_skip. }
  destruct (matches_filters task _ _) as [[]|e] eqn:Hf; cbn [negb].
  - destruct (create_task client _ _) as [r' [new_task|e]] eqn:Hc.
    + intros [= <- <-]. rewrite <- app_assoc. by eapply iteration_duplicated.
    + destruct (decide (e = TickTickAPIError)) as [->|Hne].
      * intros [= <- <-]. rewrite <- app_assoc. by eapply iteration_create_failed.
      * destruct e; try done; intros [= <- <-]; rewrite <- app_assoc;
          by eapply iteration_create_raises.
  - intros [= <- <-]. by eapply iteration_rejected.
  - intros [= <- <-]. by eapply iteration_filter_raises.
Qed.

Lemma task_duplicator_iteration self task σ σ' r :
  TaskDuplicator.loop_body client self task σ = (σ', r) →
  iteration client false (TaskDuplicator._matches_filters self)
    TaskDuplicator._create_duplicate_task task σ σ' r.
Proof.
  unfold TaskDuplicator.loop_body. run_monad.
  destruct (py_hash (dict_get task "id" JNull)) as [k|e] eqn:Hk.
  2: { intros [= <- <-]. rewrite <- (app_nil_r (trace σ)). by apply iteration_unhashable. }
  case_bool_decide as Hin.
  { intros [= <- <-]. rewrite <- (app_nil_r (trace σ)). by eapply iteration_skip. }
  destruct (TaskDuplicator._matches_filters self task) as [[]|e] eqn:Hf; cbn [negb].
  - destruct (create_task client _ _) as [r' [new_task|e]] eqn:Hc.
    + intros [= <- <-]. rewrite <- app_assoc. by eapply iteration_duplicated.
    + destruct (decide (e = TickTickAPIError)) as [->|Hne].
      * intros [= <- <-]. rewrite <- app_assoc. by eapply iteration_create_failed.
      * destruct e; try done; intros [= <- <-]; rewrite <- app_assoc;
          by eapply iteration_create_raises.
  - intros [= <- <-]. by eapply iteration_rejected.
  - intros [= <- <-]. by eapply iteration_filter_raises.
Qed.

(** The loop of the code is a sequence of iterations. *)
Lemma for_each_iterations skips filter transform body tasks :
  (∀ task σ σ' r, body task σ = (σ', r) →
     iteration client skips filter transform task σ σ' r) →
  ∀ σ σ' r, for_each tasks body σ = (σ', r) →
    iterations client skips filter transform tasks σ σ' r.
Proof.
  intros Hbody. induction tasks as [|task tasks IH]; intros σ σ' r; simpl.
  - intros [= <- <-]. constructor.
  - unfold bind. destruct (body task σ) as [σ1 [[]|e]] eqn:Hb.
    + intros Hrest. eapply iterations_next; eauto.
    + intros [= <- <-]. eapply iterations_raise; eauto.
Qed.
End IterationFacts.

(** ** What the iterations keep *)

Section Invariants.
Context {R : Type} (client : TickTickClient R) (skips : bool).
Context (filter : dict → result bool) (transform : dict → dict).

Lemma iteration_keeps task σ σ' r :
  iteration client skips filter transform task σ σ' r →
  state_file σ' = state_file σ ∧
  processed_task_ids σ ⊆ processed_task_ids σ' ∧
  (∀ k, k ∈ processed_task_ids σ' →
     k ∈ processed_task_ids σ ∨ task_key task = Return k) ∧
  ∃ evs, events_between σ σ' evs ∧
         Forall (loop_event filter transform [task] (processed_task_ids σ)) evs.
Proof.
  destruct 1; unfold after_iteration, events_between; cbn; split_and!;
    try done; try (by apply union_subseteq_r);
    try (by intros k' [->%elem_of_singleton|?]%elem_of_union; eauto);
    try (by left).
  all: eexists; split; [reflexivity|].
  all: repeat apply Forall_cons_2; try apply Forall_nil_2; cbn.
  all: split_and?; eauto; by apply list_elem_of_singleton.
Qed.

Lemma loop_event_weaken tasks tasks' ids ids' ev :
  tasks ⊆ tasks' → ids' ⊆ ids →
  loop_event filter transform tasks ids ev →
  loop_event filter transform tasks' ids' ev.
Proof.
  intros Htasks Hids. destruct ev as [task|task payload|saved]; cbn; [| |done].
  - intros (Hin & k & Hk & Hnot). split; [by apply Htasks|].
    exists k. split; [done|]. intros Hk'. apply Hnot. by apply Hids.
  - intros (Hin & Hp & Hf & k & Hk & Hnot). split_and!; [by apply Htasks|done..|].
    exists k. split; [done|]. intros Hk'. apply Hnot. by apply Hids.
Qed.

Lemma iterations_keep tasks σ σ' r :
  iterations client skips filter transform tasks σ σ' r →
  state_file σ' = state_file σ ∧
  processed_task_ids σ ⊆ processed_task_ids σ' ∧
  (∀ k, k ∈ processed_task_ids σ' →
     k ∈ processed_task_ids σ ∨ ∃ task, task ∈ tasks ∧ task_key task = Return k) ∧
  ∃ evs, events_between σ σ' evs ∧
         Forall (loop_event filter transform tasks (processed_task_ids σ)) evs.
Proof.
  induction 1 as [σ|task tasks σ σ1 σ2 r Hone Hrest IH|task tasks σ σ1 e Hone].
  - split_and!; [done|done|by left|]. exists []. split; [|done].
    unfold events_between. by rewrite app_nil_r.
  - apply iteration_keeps in Hone as (Hfile1 & Hsub1 & Hnew1 & evs1 & Hevs1 & Hall1).
    destruct IH as (Hfile2 & Hsub2 & Hnew2 & evs2 & Hevs2 & Hall2).
    split_and!.
    + congruence.
    + by transitivity (processed_task_ids σ1).
    + intros k [Hk|(t & Ht & Hk)]%Hnew2.
      * apply Hnew1 in Hk as [Hk|Hk]; [by left|].
        right. exists task. split; [apply elem_of_cons; by left|done].
      * right. exists t. split; [apply elem_of_cons; by right|done].
    + exists (evs1 ++ evs2). split.
      * unfold events_between in *. by rewrite Hevs2, Hevs1, app_assoc.
      * apply Forall_app. split.
        -- eapply Forall_impl; [exact Hall1|]. intros ev.
           apply loop_event_weaken; [|done].
           intros t ->%list_elem_of_singleton. apply elem_of_cons; by left.
        -- eapply Forall_impl; [exact Hall2|]. intros ev.
           apply loop_event_weaken; [|done].
           intros t Ht. apply elem_of_cons; by right.
  - apply iteration_keeps in Hone as (Hfile1 & Hsub1 & Hnew1 & evs1 & Hevs1 & Hall1).
    split_and!; [done|done| |].
    + intros k [Hk|Hk]%Hnew1; [by left|].
      right. exists task. split; [apply elem_of_cons; by left|done].
    + exists evs1. split; [done|].
      eapply Forall_impl; [exact Hall1|]. intros ev.
      apply loop_event_weaken; [|done].
      intros t ->%list_elem_of_singleton. apply elem_of_cons; by left.
Qed.
End Invariants.


(** ** The counters *)

Lemma count_fresh_mono ids ids' tasks :
  ids ⊆ ids' → (count_fresh ids' tasks ≤ count_fresh ids tasks)%nat.
Proof.
  intros Hsub. unfold count_fresh. induction tasks as [|task tasks IH]; simpl; [done|].
  assert (Himp : already_processed ids task = true → already_processed ids' task = true).
  { unfold already_processed. destruct (task_key task) as [k|]; [|done].
    rewrite !bool_decide_eq_true. apply Hsub. }
  destruct (already_processed ids task), (already_processed ids' task); simpl;
    try lia.
Qed.

Section Counters.
Context {R : Type} (client : TickTickClient R) (skips : bool).
Context (filter : dict → result bool) (transform : dict → dict).

Lemma iteration_counts task σ σ' :
  iteration client skips filter transform task σ σ' (Return ()) →
  counted_from (stats σ) (stats σ') 1
    (count_fresh (processed_task_ids σ) [task]).
Proof.
  unfold counted_from, count_fresh, already_processed.
  inversion 1; subst; cbn; try (split_and!; lia).
  all: match goal with H : task_key _ = _ |- _ => rewrite H end.
  all: rewrite bool_decide_eq_false_2 by done; cbn; split_and!; lia.
Qed.

Lemma iterations_count tasks σ σ' :
  iterations client skips filter transform tasks σ σ' (Return ()) →
  counted_from (stats σ) (stats σ') (List.length tasks)
    (count_fresh (processed_task_ids σ) tasks).
Proof.
  remember (Return ()) as r eqn:Hr.
  induction 1 as [σ|task tasks σ σ1 σ2 r Hone Hrest IH|]; [| |done].
  - unfold counted_from. cbn. split_and!; lia.
  - specialize (IH Hr).
    pose proof (iteration_counts _ _ _ Hone) as H1.
    apply iteration_keeps in Hone as (_ & Hsub & _).
    pose proof (count_fresh_mono _ _ tasks Hsub) as Hmono.
    unfold counted_from in *. unfold count_fresh in *. cbn in *.
    destruct (negb (already_processed (processed_task_ids σ) task)); cbn in *;
      split_and!; lia.
Qed.
End Counters.

(** ** A whole pass *)

Section PassFacts.
Context {R : Type} (client : TickTickClient R).

Lemma duplicate_completed_tasks_fetch_failed config σ r' :
  get_completed_tasks client (remote σ) = (r', Raise TickTickAPIError) →
  DuplicateCompletedTasks.run_automation client config σ =
    (mkSt r' (state_file σ) (stored_ids (state_file σ)) (mkStats 0 0 0 1) (trace σ),
     Return (mkStats 0 0 0 1)).
Proof.
  intros Hfetch. unfold DuplicateCompletedTasks.run_automation,
    DuplicateCompletedTasks.get_processed_tasks. run_monad.
  by rewrite Hfetch.
Qed.

Lemma duplicate_completed_tasks_fetched config σ r' tasks :
  get_completed_tasks client (remote σ) = (r', Return tasks) →
  DuplicateCompletedTasks.run_automation client config σ =
    finish_pass (for_each tasks (DuplicateCompletedTasks.loop_body client config)
                   (start_of_loop σ r' (stored_ids (state_file σ)))).
Proof.
  intros Hfetch. unfold DuplicateCompletedTasks.run_automation,
    DuplicateCompletedTasks.get_processed_tasks,
    DuplicateCompletedTasks.save_processed_tasks. run_monad.
  rewrite Hfetch. unfold start_of_loop, finish_pass.
  destruct (for_each tasks _ _) as [σ1 [[]|[]]]; reflexivity.
Qed.

Lemma process_completed_tasks_fetch_failed self σ r' :
  get_completed_tasks client (remote σ) = (r', Raise TickTickAPIError) →
  TaskDuplicator.process_completed_tasks client self σ =
    (mkSt r' (state_file σ) (processed_task_ids σ) (mkStats 0 0 0 1) (trace σ),
     Return (mkStats 0 0 0 1)).
Proof.
  intros Hfetch. unfold TaskDuplicator.process_completed_tasks. run_monad.
  by rewrite Hfetch.
Qed.

Lemma process_completed_tasks_fetched self σ r' tasks :
  get_completed_tasks client (remote σ) = (r', Return tasks) →
  TaskDuplicator.process_completed_tasks client self σ =
    finish_pass (for_each tasks (TaskDuplicator.loop_body client self)
                   (start_of_loop σ r' (processed_task_ids σ))).
Proof.
  intros Hfetch. unfold TaskDuplicator.process_completed_tasks,
    TaskDuplicator._save_processed_tasks. run_monad.
  rewrite Hfetch. unfold start_of_loop, finish_pass.
  destruct (for_each tasks _ _) as [σ1 [[]|[]]]; reflexivity.
Qed.

(** [main.run_automation]: the new object takes its set from the file. *)
Lemma main_run_automation_eq config σ :
  Main.run_automation client config σ =
  TaskDuplicator.process_completed_tasks client
    {| TaskDuplicator.name_filter := name_filter config;
       TaskDuplicator.tag_filters := tag_filters config |}
    (mkSt (remote σ) (state_file σ) (stored_ids (state_file σ)) (stats σ) (trace σ)).
Proof.
  unfold Main.run_automation, TaskDuplicator.__init__,
    TaskDuplicator._load_processed_tasks. run_monad.
  by destruct (tag_filters config).
Qed.
End PassFacts.

(** ** Which exceptions can leave the loop *)

Lemma py_hash_raises v e : py_hash v = Raise e → e = TypeError.
Proof. destruct v; simpl; congruence. Qed.

Lemma py_any_in_raises tag_filters container e :
  py_any ((λ tag, py_in tag container) <$> tag_filters) = Raise e → e = TypeError.
Proof.
  induction tag_filters as [|t ts IH]; simpl; [done|].
  destruct (py_in t container) as [[]|e'] eqn:Hin; [done|done|].
  intros [= <-]. destruct container; simpl in Hin; congruence.
Qed.

Lemma bind_raises {A B} (m : result A) (f : A → result B) e :
  m ≫= f = Raise e → m = Raise e ∨ ∃ a, m = Return a ∧ f a = Raise e.
Proof.
  unfold mbind, result_bind.
  destruct m as [a|e']; intros H; [right; by exists a|].
  injection H as ->. by left.
Qed.

Lemma str_lower_raises v e : str_lower v = Raise e → e = AttributeError.
Proof. destruct v; simpl; congruence. Qed.

Lemma matches_filters_raises task name_filter tag_filters e :
  matches_filters task name_filter tag_filters = Raise e →
  e = AttributeError ∨ e = TypeError.
Proof.
  unfold matches_filters. intros [H|(rejected & _ & H)]%bind_raises.
  - left. destruct name_filter as [nf|]; [|done].
    destruct (negb (nf =? "")%string); [|done].
    apply bind_raises in H as [H|(task_title & _ & H)]; [|done].
    by apply str_lower_raises in H.
  - destruct rejected; [done|].
    apply bind_raises in H as [H|(rejected & _ & H)]; [|by destruct rejected].
    right. destruct tag_filters as [|t ts]; [done|].
    apply bind_raises in H as [H|(found & _ & H)]; [|done].
    by apply py_any_in_raises in H.
Qed.

Lemma matches_filters_not_api task name_filter tag_filters :
  matches_filters task name_filter tag_filters ≠ Raise TickTickAPIError.
Proof. by intros [?|?]%matches_filters_raises. Qed.

Section PassInvariants.
Context {R : Type} (client : TickTickClient R) (skips : bool).
Context (filter : dict → result bool) (transform : dict → dict).
Context (body : dict → M (St R) unit).
Hypothesis body_iteration : ∀ task σ σ' r,
  body task σ = (σ', r) → iteration client skips filter transform task σ σ' r.
Hypothesis filter_raises : ∀ task, filter task ≠ Raise TickTickAPIError.

Lemma iteration_raises task σ σ' e :
  iteration client skips filter transform task σ σ' (Raise e) → e ≠ TickTickAPIError.
Proof.
  inversion 1; subst; try done.
  - match goal with H : task_key _ = _ |- _ => apply py_hash_raises in H as -> end.
    done.
  - intros ->. by eapply filter_raises.
Qed.

Lemma iterations_raises tasks σ σ' e :
  iterations client skips filter transform tasks σ σ' (Raise e) →
  e ≠ TickTickAPIError ∧
  ∃ task σ1 σ2, task ∈ tasks ∧
    iteration client skips filter transform task σ1 σ2 (Raise e).
Proof.
  remember (Raise e) as r eqn:Hr.
  induction 1 as [|task tasks σ σ1 σ2 r Hone Hrest IH|task tasks σ σ1 e' Hone];
    [done| |].
  - destruct (IH Hr) as (Hne & t & σa & σb & Hin & Hit).
    split; [done|]. exists t, σa, σb. split; [|done]. apply elem_of_cons; by right.
  - injection Hr as ->. split; [by eapply iteration_raises|].
    exists task, σ, σ1. split; [|done]. apply elem_of_cons; by left.
Qed.

(** The two ways a pass ends once the tasks are fetched: the loop
    returns and the state file is written, or an exception other than
    [TickTickAPIError] leaves the pass where it was raised. *)
Lemma finish_pass_cases tasks σ σ' res :
  finish_pass (for_each tasks body σ) = (σ', res) →
  (∃ σ1, iterations client skips filter transform tasks σ σ1 (Return ()) ∧
         σ' = mkSt (remote σ1) (Some (processed_task_ids σ1))
                (processed_task_ids σ1) (stats σ1)
                (trace σ1 ++ [EvSave (processed_task_ids σ1)]) ∧
         res = Return (stats σ1)) ∨
  (∃ e, iterations client skips filter transform tasks σ σ' (Raise e) ∧
        e ≠ TickTickAPIError ∧ res = Raise e).
Proof.
  destruct (for_each tasks body σ) as [σ1 r] eqn:Hloop.
  apply (for_each_iterations client skips filter transform body tasks body_iteration)
    in Hloop.
  destruct r as [[]|e]; simpl.
  - intros [= <- <-]. left. by exists σ1.
  - pose proof (iterations_raises _ _ _ _ Hloop) as [Hne _].
    destruct e; try done; intros [= <- <-]; right; eexists; by split_and!.
Qed.

(** On well-formed tasks, with a client that raises nothing but
    [TickTickAPIError], the loop returns. *)
Lemma for_each_returns tasks σ :
  Forall (well_formed filter) tasks →
  raises_only_api_errors client →
  ∃ σ1, for_each tasks body σ = (σ1, Return ()).
Proof.
  intros Hwf [_ Hcreate].
  destruct (for_each tasks body σ) as [σ1 [[]|e]] eqn:Hloop; [by exists σ1|].
  apply (for_each_iterations client skips filter transform body tasks body_iteration)
    in Hloop.
  apply iterations_raises in Hloop as (_ & task & σa & σb & Hin & Hit).
  rewrite Forall_forall in Hwf. destruct (Hwf task Hin) as [[k Hk] [b Hb]].
  inversion Hit; subst; try congruence.
  match goal with H : create_task _ _ _ = _ |- _ => apply Hcreate in H end.
  done.
Qed.
End PassInvariants.

(** ** The three passes have one shape *)

Section PassOfFacts.
Context {R : Type} (client : TickTickClient R).

Lemma duplicate_completed_tasks_pass config σ :
  DuplicateCompletedTasks.run_automation client config σ =
  pass_of client (DuplicateCompletedTasks.loop_body client config)
    (stored_ids (state_file σ)) σ.
Proof.
  unfold pass_of.
  destruct (get_completed_tasks client (remote σ)) as [r' [tasks|e]] eqn:Hfetch.
  - by apply duplicate_completed_tasks_fetched.
  - unfold DuplicateCompletedTasks.run_automation,
      DuplicateCompletedTasks.get_processed_tasks. run_monad.
    rewrite Hfetch. by destruct e.
Qed.

Lemma process_completed_tasks_pass self σ :
  TaskDuplicator.process_completed_tasks client self σ =
  pass_of client (TaskDuplicator.loop_body client self) (processed_task_ids σ) σ.
Proof.
  unfold pass_of.
  destruct (get_completed_tasks client (remote σ)) as [r' [tasks|e]] eqn:Hfetch.
  - by apply process_completed_tasks_fetched.
  - unfold TaskDuplicator.process_completed_tasks. run_monad.
    rewrite Hfetch. by destruct e.
Qed.

Lemma main_run_automation_pass config σ :
  Main.run_automation client config σ =
  pass_of client (TaskDuplicator.loop_body client (duplicator_of config))
    (stored_ids (state_file σ)) σ.
Proof. by rewrite main_run_automation_eq, process_completed_tasks_pass. Qed.
End PassOfFacts.

Section PassOfInvariants.
Context {R : Type} (client : TickTickClient R) (skips : bool).
Context (filter : dict → result bool) (transform : dict → dict).
Context (body : dict → M (St R) unit).
Hypothesis body_iteration : ∀ task σ σ' r,
  body task σ = (σ', r) → iteration client skips filter transform task σ σ' r.
Hypothesis filter_raises : ∀ task, filter task ≠ Raise TickTickAPIError.

Lemma loop_event_pass_event tasks ids ev :
  loop_event filter transform tasks ids ev → pass_event filter transform ids ev.
Proof.
  destruct ev as [task|task payload|saved]; cbn; [| |done].
  - by intros [_ ?].
  - by intros (_ & ? & ? & ?).
Qed.

(** What every pass keeps: the processed set only grows, the state
    file is left alone or overwritten with the processed set, and the
    events are those of [pass_event]. *)
Lemma pass_of_keeps ids σ σ' res :
  pass_of client body ids σ = (σ', res) →
  ids ⊆ processed_task_ids σ' ∧
  (state_file σ' = state_file σ ∨ state_file σ' = Some (processed_task_ids σ')) ∧
  ∃ evs, events_between σ σ' evs ∧ Forall (pass_event filter transform ids) evs.
Proof.
  unfold pass_of.
  destruct (get_completed_tasks client (remote σ)) as [r' [tasks|e]] eqn:Hfetch.
  - intros [(σ1 & Hloop & -> & ->)|(e & Hloop & Hne & ->)]%(finish_pass_cases
      client skips filter transform body body_iteration filter_raises).
    + apply iterations_keep in Hloop as (Hfile & Hsub & _ & evs & Hevs & Hall).
      cbn in *. split_and!; [done|by right|].
      exists (evs ++ [EvSave (processed_task_ids σ1)]). split.
      * unfold events_between in *. cbn in *. by rewrite Hevs, app_assoc.
      * apply Forall_app. split; [|by apply Forall_singleton].
        eapply Forall_impl; [exact Hall|]. apply loop_event_pass_event.
    + apply iterations_keep in Hloop as (Hfile & Hsub & _ & evs & Hevs & Hall).
      cbn in *. split_and!; [done|by left|].
      exists evs. split; [done|].
      eapply Forall_impl; [exact Hall|]. apply loop_event_pass_event.
  - assert (Hnone : events_between σ σ' [] → state_file σ' = state_file σ →
                    processed_task_ids σ' = ids →
      ids ⊆ processed_task_ids σ' ∧
      (state_file σ' = state_file σ ∨ state_file σ' = Some (processed_task_ids σ')) ∧
      ∃ evs, events_between σ σ' evs ∧ Forall (pass_event filter transform ids) evs).
    { intros Hevs Hfile Hids. split_and!; [by rewrite Hids|by left|].
      exists []. by split. }
    destruct e; intros [= <- <-]; apply Hnone; unfold events_between; cbn;
      by rewrite ?app_nil_r.
Qed.

(** A pass that returns statistics after a successful fetch has gone
    through the whole list and written the state file. *)
Lemma pass_of_returns ids σ σ' r' tasks stats' :
  get_completed_tasks client (remote σ) = (r', Return tasks) →
  pass_of client body ids σ = (σ', Return stats') →
  ∃ σ1, iterations client skips filter transform tasks
          (start_of_loop σ r' ids) σ1 (Return ()) ∧
        stats' = stats σ1 ∧ stats σ' = stats σ1 ∧
        processed_task_ids σ' = processed_task_ids σ1 ∧
        state_file σ' = Some (processed_task_ids σ1) ∧
        trace σ' = trace σ1 ++ [EvSave (processed_task_ids σ1)].
Proof.
  unfold pass_of. intros ->.
  intros [(σ1 & Hloop & -> & [= ->])|(e & _ & _ & [=])]%(finish_pass_cases
    client skips filter transform body body_iteration filter_raises).
  by exists σ1.
Qed.

Lemma pass_of_total ids σ r' tasks :
  get_completed_tasks client (remote σ) = (r', Return tasks) →
  Forall (well_formed filter) tasks →
  raises_only_api_errors client →
  ∃ σ' stats', pass_of client body ids σ = (σ', Return stats').
Proof.
  intros Hfetch Hwf Hclient. unfold pass_of. rewrite Hfetch.
  destruct (for_each_returns client skips filter transform body body_iteration
              filter_raises tasks (start_of_loop σ r' ids) Hwf Hclient) as [σ1 ->].
  cbn. eauto.
Qed.
End PassOfInvariants.

(** ** Properties of a pass *)

(** C6: when fetching the completed tasks fails with the error of the
    remote service, the pass returns checked=0, matched=0, duplicated=0,
    errors=1; the processed set in memory is what it was (for
    [run_automation]: what was read from the state file), the state file
    is not written, and no event happened, so [create_task] was not
    called. *)
Theorem fetch_failure_aborts_pass {R} (client : TickTickClient R)
    (config : Config) (self : TaskDuplicator.self) (σ : St R) (r' : R) :
  get_completed_tasks client (remote σ) = (r', Raise TickTickAPIError) →
  (∃ σ', DuplicateCompletedTasks.run_automation client config σ =
           (σ', Return (mkStats 0 0 0 1)) ∧
         processed_task_ids σ' = stored_ids (state_file σ) ∧
         state_file σ' = state_file σ ∧ trace σ' = trace σ ∧ remote σ' = r') ∧
  (∃ σ', TaskDuplicator.process_completed_tasks client self σ =
           (σ', Return (mkStats 0 0 0 1)) ∧
         processed_task_ids σ' = processed_task_ids σ ∧
         state_file σ' = state_file σ ∧ trace σ' = trace σ ∧ remote σ' = r').
Proof.
  intros Hfetch. split.
  - rewrite (duplicate_completed_tasks_fetch_failed client config σ r' Hfetch).
    eexists. by split_and!.
  - rewrite (process_completed_tasks_fetch_failed client self σ r' Hfetch).
    eexists. by split_and!.
Qed.

Lemma fetch_failure_aborts_pass_witness :
  get_completed_tasks unreachable (remote t1_processed) = (0%nat, Raise TickTickAPIError) ∧
  ∃ σ', DuplicateCompletedTasks.run_automation unreachable zap_config t1_processed =
          (σ', Return (mkStats 0 0 0 1)) ∧
        processed_task_ids σ' = stored_ids (state_file t1_processed) ∧
        state_file σ' = state_file t1_processed ∧
        trace σ' = trace t1_processed ∧ remote σ' = 0%nat.
Proof.
  split; [reflexivity|].
  exact (proj1 (fetch_failure_aborts_pass unreachable zap_config
                  (duplicator_of zap_config) t1_processed 0%nat eq_refl)).
Defined.

Lemma count_fresh_le ids tasks : (count_fresh ids tasks ≤ List.length tasks)%nat.
Proof.
  unfold count_fresh. induction tasks as [|task tasks IH]; simpl; [done|].
  destruct (negb (already_processed ids task)); simpl; lia.
Qed.

Lemma counted_from_zero s tasks ids :
  counted_from (mkStats 0 0 0 0) s (List.length tasks) (count_fresh ids tasks) →
  stats_invariant s tasks ids.
Proof.
  unfold counted_from, stats_invariant. cbn.
  pose proof (count_fresh_le ids tasks). lia.
Qed.

Section Statistics.
Context {R : Type} (client : TickTickClient R) (skips : bool).
Context (filter : dict → result bool) (transform : dict → dict).
Context (body : dict → M (St R) unit).
Hypothesis body_iteration : ∀ task σ σ' r,
  body task σ = (σ', r) → iteration client skips filter transform task σ σ' r.
Hypothesis filter_raises : ∀ task, filter task ≠ Raise TickTickAPIError.

Lemma pass_of_stats ids σ σ' r' tasks s :
  get_completed_tasks client (remote σ) = (r', Return tasks) →
  pass_of client body ids σ = (σ', Return s) →
  stats_invariant s tasks ids.
Proof.
  intros Hfetch Hpass.
  destruct (pass_of_returns client skips filter transform body body_iteration
              filter_raises ids σ σ' r' tasks s Hfetch Hpass)
    as (σ1 & Hloop & -> & _).
  apply iterations_count in Hloop. by apply counted_from_zero.
Qed.
End Statistics.

(** C10: in a pass whose fetch succeeds, the statistics returned have
    matched = duplicated + errors and matched ≤ checked, checked is the
    number of tasks fetched, and matched is at most the number of those
    not already processed when the pass began.  Such a pass does return
    statistics when hashing the identifier and the filter raise on no
    fetched task and the client raises nothing but its own error. *)
Theorem statistics_invariant {R} (client : TickTickClient R)
    (config : Config) (self : TaskDuplicator.self) (σ : St R) (r' : R)
    (tasks : list dict) :
  get_completed_tasks client (remote σ) = (r', Return tasks) →
  (∀ σ' s, DuplicateCompletedTasks.run_automation client config σ = (σ', Return s) →
     stats_invariant s tasks (stored_ids (state_file σ))) ∧
  (∀ σ' s, TaskDuplicator.process_completed_tasks client self σ = (σ', Return s) →
     stats_invariant s tasks (processed_task_ids σ)) ∧
  (raises_only_api_errors client →
   Forall (well_formed
             (λ t, matches_filters t (name_filter config) (tag_filters config)))
     tasks →
   ∃ σ' s, DuplicateCompletedTasks.run_automation client config σ = (σ', Return s)) ∧
  (raises_only_api_errors client →
   Forall (well_formed (TaskDuplicator._matches_filters self)) tasks →
   ∃ σ' s, TaskDuplicator.process_completed_tasks client self σ = (σ', Return s)).
Proof.
  intros Hfetch. split_and!.
  - intros σ' s. rewrite duplicate_completed_tasks_pass.
    eapply pass_of_stats; [apply duplicate_completed_tasks_iteration| |done].
    intros task. apply matches_filters_not_api.
  - intros σ' s. rewrite process_completed_tasks_pass.
    eapply pass_of_stats; [apply task_duplicator_iteration| |done].
    intros task. apply matches_filters_not_api.
  - intros Hclient Hwf. rewrite duplicate_completed_tasks_pass.
    eapply pass_of_total; [apply duplicate_completed_tasks_iteration| |done..].
    intros task. apply matches_filters_not_api.
  - intros Hclient Hwf. rewrite process_completed_tasks_pass.
    eapply pass_of_total; [apply task_duplicator_iteration| |done..].
    intros task. apply matches_filters_not_api.
Qed.

Lemma statistics_invariant_witness :
  get_completed_tasks (serving [milk; milk]) (remote t1_processed) =
    (0%nat, Return [milk; milk]) ∧
  ∀ σ' s,
    DuplicateCompletedTasks.run_automation (serving [milk; milk]) zap_config
      t1_processed = (σ', Return s) →
    stats_invariant s [milk; milk] (stored_ids (state_file t1_processed)).
Proof.
  split; [reflexivity|].
  exact (proj1 (statistics_invariant (serving [milk; milk]) zap_config
                  (duplicator_of zap_config) t1_processed 0%nat [milk; milk]
                  eq_refl)).
Defined.

Section Skipping.
Context {R : Type} (client : TickTickClient R).

Lemma duplicate_completed_tasks_skips config task k σ :
  task_key task = Return k →
  k ∈ processed_task_ids σ →
  DuplicateCompletedTasks.loop_body client config task σ =
    (only_counted σ, Return ()).
Proof.
  unfold task_key, DuplicateCompletedTasks.loop_body. intros Hk Hin. run_monad.
  destruct (truthy (dict_get task "id" JNull)); cbn [negb]; [|done].
  rewrite Hk. by rewrite bool_decide_eq_true_2.
Qed.

Lemma task_duplicator_skips self task k σ :
  task_key task = Return k →
  k ∈ processed_task_ids σ →
  TaskDuplicator.loop_body client self task σ = (only_counted σ, Return ()).
Proof.
  unfold task_key, TaskDuplicator.loop_body. intros Hk Hin. run_monad.
  rewrite Hk. by rewrite bool_decide_eq_true_2.
Qed.
End Skipping.

(** No [create_task] among the events for a task whose identifier is in
    [ids]. *)
Lemma pass_event_no_create filter transform ids evs task payload k :
  Forall (pass_event filter transform ids) evs →
  EvCreate task payload ∈ evs →
  task_key task = Return k →
  k ∉ ids.
Proof.
  intros Hall Hin Hk. rewrite Forall_forall in Hall.
  destruct (Hall _ Hin) as (_ & _ & k' & Hk' & Hnot). congruence.
Qed.

(** C1: a task whose identifier is in the processed set is only counted
    as checked: its iteration changes neither [matched] nor [duplicated]
    nor anything else, and makes no call.  Over a whole pass, whatever
    the remote service answers, no [create_task] is called for a task
    whose identifier was in the processed set when the pass began (the
    state file for [run_automation], the set of the object for
    [process_completed_tasks]). *)
Theorem processed_tasks_are_skipped {R} (client : TickTickClient R)
    (config : Config) (self : TaskDuplicator.self) :
  (∀ task k σ,
     task_key task = Return k →
     k ∈ processed_task_ids σ →
     DuplicateCompletedTasks.loop_body client config task σ =
       (only_counted σ, Return ()) ∧
     TaskDuplicator.loop_body client self task σ = (only_counted σ, Return ())) ∧
  (∀ σ σ' res,
     DuplicateCompletedTasks.run_automation client config σ = (σ', res) →
     ∃ evs, events_between σ σ' evs ∧
       ∀ task payload k,
         EvCreate task payload ∈ evs →
         task_key task = Return k →
         k ∉ stored_ids (state_file σ)) ∧
  (∀ σ σ' res,
     TaskDuplicator.process_completed_tasks client self σ = (σ', res) →
     ∃ evs, events_between σ σ' evs ∧
       ∀ task payload k,
         EvCreate task payload ∈ evs →
         task_key task = Return k →
         k ∉ processed_task_ids σ).
Proof.
  split_and!.
  - intros task k σ Hk Hin. split.
    + by apply duplicate_completed_tasks_skips with k.
    + by apply task_duplicator_skips with k.
  - intros σ σ' res. rewrite duplicate_completed_tasks_pass. intros Hpass.
    eapply pass_of_keeps in Hpass as (_ & _ & evs & Hevs & Hall);
      [|apply duplicate_completed_tasks_iteration
       |intros task; apply matches_filters_not_api].
    exists evs. split; [done|]. intros task payload k.
    by eapply pass_event_no_create.
  - intros σ σ' res. rewrite process_completed_tasks_pass. intros Hpass.
    eapply pass_of_keeps in Hpass as (_ & _ & evs & Hevs & Hall);
      [|apply task_duplicator_iteration
       |intros task; apply matches_filters_not_api].
    exists evs. split; [done|]. intros task payload k.
    by eapply pass_event_no_create.
Qed.

Lemma processed_tasks_are_skipped_witness :
  task_key milk = Return (HStr "t1") ∧
  HStr "t1" ∈ processed_task_ids t1_processed ∧
  DuplicateCompletedTasks.loop_body (serving [milk]) zap_config milk t1_processed =
    (only_counted t1_processed, Return ()) ∧
  TaskDuplicator.loop_body (serving [milk]) (duplicator_of zap_config) milk
    t1_processed = (only_counted t1_processed, Return ()).
Proof.
  assert (Hk : task_key milk = Return (HStr "t1")) by reflexivity.
  assert (Hin : HStr "t1" ∈ processed_task_ids t1_processed)
    by (by apply elem_of_singleton).
  split; [exact Hk|]. split; [exact Hin|].
  exact (proj1 (processed_tasks_are_skipped (serving [milk]) zap_config
                  (duplicator_of zap_config)) milk (HStr "t1") t1_processed Hk Hin).
Defined.

(** ** A failure of [create_task] *)

Lemma for_each_app {S A} (body : A → M S unit) (xs ys : list A) (σ σ1 : S) :
  for_each xs body σ = (σ1, Return ()) →
  for_each (xs ++ ys) body σ = for_each ys body σ1.
Proof.
  revert σ. induction xs as [|x xs IH]; intros σ; simpl.
  - by intros [= ->].
  - unfold bind. destruct (body x σ) as [σ' [[]|e]]; [apply IH|done].
Qed.

Section CreateFailure.
Context {R : Type} (client : TickTickClient R).

Lemma duplicate_completed_tasks_create_failed config task k σ r' :
  task_key task = Return k →
  truthy (dict_get task "id" JNull) = true →
  k ∉ processed_task_ids σ →
  matches_filters task (name_filter config) (tag_filters config) = Return true →
  create_task client (create_duplicate_task task) (remote σ) =
    (r', Raise TickTickAPIError) →
  DuplicateCompletedTasks.loop_body client config task σ =
    (after_failed_create create_duplicate_task task σ r', Return ()).
Proof.
  unfold task_key, DuplicateCompletedTasks.loop_body, after_failed_create.
  intros Hk Hid Hin Hf Hc. run_monad.
  rewrite Hid, Hk. cbn [negb]. rewrite bool_decide_eq_false_2 by done.
  rewrite Hf. cbn [negb]. run_monad. rewrite Hc. by rewrite <- app_assoc.
Qed.

Lemma task_duplicator_create_failed self task k σ r' :
  task_key task = Return k →
  k ∉ processed_task_ids σ →
  TaskDuplicator._matches_filters self task = Return true →
  create_task client (TaskDuplicator._create_duplicate_task task) (remote σ) =
    (r', Raise TickTickAPIError) →
  TaskDuplicator.loop_body client self task σ =
    (after_failed_create TaskDuplicator._create_duplicate_task task σ r', Return ()).
Proof.
  unfold task_key, TaskDuplicator.loop_body, after_failed_create.
  intros Hk Hin Hf Hc. run_monad.
  rewrite Hk. rewrite bool_decide_eq_false_2 by done.
  rewrite Hf. cbn [negb]. run_monad. rewrite Hc. by rewrite <- app_assoc.
Qed.

Context (skips : bool).
Context (filter : dict → result bool) (transform : dict → dict).
Context (body : dict → M (St R) unit).
Hypothesis body_iteration : ∀ task σ σ' r,
  body task σ = (σ', r) → iteration client skips filter transform task σ σ' r.

Lemma create_failure_isolated_of_step pass σ0 r0 before task after σ k r' :
  (∀ σ, pass σ = pass_of client body (stored_ids (state_file σ)) σ) →
  get_completed_tasks client (remote σ0) = (r0, Return (before ++ task :: after)) →
  for_each before body (start_of_loop σ0 r0 (stored_ids (state_file σ0))) =
    (σ, Return ()) →
  k ∉ processed_task_ids σ →
  body task σ = (after_failed_create transform task σ r', Return ()) →
  create_failure_isolated body pass transform σ0 r0 (stored_ids (state_file σ0))
    before task after σ k r'.
Proof.
  intros Hpass Hfetch Hbefore Hk Hstep.
  assert (Hloop : for_each (before ++ task :: after) body
                    (start_of_loop σ0 r0 (stored_ids (state_file σ0))) =
                  for_each after body (after_failed_create transform task σ r')).
  { rewrite (for_each_app _ _ _ _ _ Hbefore). simpl. unfold bind.
    by rewrite Hstep. }
  unfold create_failure_isolated. split_and!; try done.
  intros Hafter σ' res. rewrite Hpass. unfold pass_of. rewrite Hfetch, Hloop.
  apply (for_each_iterations client skips filter transform body before
           body_iteration) in Hbefore.
  apply iterations_keep in Hbefore as (Hfile0 & Hsub0 & _).
  destruct (for_each after body _) as [σ2 r] eqn:Hrest.
  apply (for_each_iterations client skips filter transform body after
           body_iteration) in Hrest.
  apply iterations_keep in Hrest as (Hfile2 & _ & Hnew2 & _).
  assert (Hk2 : k ∉ processed_task_ids σ2).
  { intros [Hin|(t & Ht & Hkt)]%Hnew2; [done|]. by apply (Hafter t). }
  assert (Hk0 : k ∉ stored_ids (state_file σ2)).
  { rewrite Hfile2. cbn. rewrite Hfile0. cbn. intros Hin. apply Hk.
    by apply Hsub0. }
  destruct r as [[]|e]; cbn.
  - intros [= <- <-]. by cbn.
  - by destruct e; intros [= <- <-].
Qed.
End CreateFailure.

(** C5: when [create_task] raises the error of the remote service for a
    task that the filter accepted, the iteration ends without raising
    and counts exactly one error (and one match, no duplicate), the
    identifier of the task is not added to the processed set, the loop
    goes on with the remaining tasks, and, when no later task of the
    fetched list has the same identifier, the identifier is absent from
    the processed set and from the state file once the pass is over.
    This holds for [run_automation] of automations/ (for a task with
    a valid identifier, the only kind whose duplicate it attempts) and
    for [run_automation] of main.py with [TaskDuplicator]. *)
Theorem create_failure_is_isolated {R} (client : TickTickClient R)
    (config : Config) (σ0 : St R) (r0 : R)
    (before : list dict) (task : dict) (after : list dict)
    (σ : St R) (k : hashable) (r' : R) :
  get_completed_tasks client (remote σ0) = (r0, Return (before ++ task :: after)) →
  task_key task = Return k →
  k ∉ processed_task_ids σ →
  (for_each before (DuplicateCompletedTasks.loop_body client config)
     (start_of_loop σ0 r0 (stored_ids (state_file σ0))) = (σ, Return ()) →
   truthy (dict_get task "id" JNull) = true →
   matches_filters task (name_filter config) (tag_filters config) = Return true →
   create_task client (create_duplicate_task task) (remote σ) =
     (r', Raise TickTickAPIError) →
   create_failure_isolated
     (DuplicateCompletedTasks.loop_body client config)
     (DuplicateCompletedTasks.run_automation client config)
     create_duplicate_task
     σ0 r0 (stored_ids (state_file σ0)) before task after σ k r') ∧
  (for_each before (TaskDuplicator.loop_body client (duplicator_of config))
     (start_of_loop σ0 r0 (stored_ids (state_file σ0))) = (σ, Return ()) →
   TaskDuplicator._matches_filters (duplicator_of config) task = Return true →
   create_task client (TaskDuplicator._create_duplicate_task task) (remote σ) =
     (r', Raise TickTickAPIError) →
   create_failure_isolated
     (TaskDuplicator.loop_body client (duplicator_of config))
     (Main.run_automation client config)
     TaskDuplicator._create_duplicate_task
     σ0 r0 (stored_ids (state_file σ0)) before task after σ k r').
Proof.
  intros Hfetch Hk Hin. split.
  - intros Hbefore Hid Hf Hc.
    eapply create_failure_isolated_of_step; try done.
    + apply duplicate_completed_tasks_iteration.
    + intros σ1. apply duplicate_completed_tasks_pass.
    + by apply duplicate_completed_tasks_create_failed with k.
  - intros Hbefore Hf Hc.
    eapply create_failure_isolated_of_step; try done.
    + apply task_duplicator_iteration.
    + intros σ1. apply main_run_automation_pass.
    + by apply task_duplicator_create_failed with k.
Qed.

Lemma create_failure_is_isolated_witness :
  let client := refusing [milk; bread] in
  let σ := start_of_loop first_run 0%nat (stored_ids (state_file first_run)) in
  get_completed_tasks client (remote first_run) = (0%nat, Return ([] ++ milk :: [bread])) ∧
  task_key milk = Return (HStr "t1") ∧
  (HStr "t1" ∉ processed_task_ids σ) ∧
  create_failure_isolated
    (DuplicateCompletedTasks.loop_body client zap_config)
    (DuplicateCompletedTasks.run_automation client zap_config)
    create_duplicate_task
    first_run 0%nat (stored_ids (state_file first_run)) [] milk [bread] σ
    (HStr "t1") 0%nat.
Proof.
  intros client σ.
  assert (Hfetch : get_completed_tasks client (remote first_run) =
                   (0%nat, Return ([] ++ milk :: [bread]))) by reflexivity.
  assert (Hk : task_key milk = Return (HStr "t1")) by reflexivity.
  assert (Hin : HStr "t1" ∉ processed_task_ids σ) by apply not_elem_of_empty.
  split; [exact Hfetch|]. split; [exact Hk|]. split; [exact Hin|].
  exact (proj1 (create_failure_is_isolated client zap_config first_run 0%nat
                  [] milk [bread] σ (HStr "t1") 0%nat Hfetch Hk Hin)
           eq_refl eq_refl eq_refl eq_refl).
Defined.

(** ** Passes one after the other *)

Lemma pass_event_weaken filter transform ids ids' ev :
  ids' ⊆ ids →
  pass_event filter transform ids ev → pass_event filter transform ids' ev.
Proof.
  intros Hsub. destruct ev as [task|task payload|saved]; cbn.
  - intros (k & Hk & Hnot). exists k. split; [done|]. intros Hin. by apply Hnot, Hsub.
  - intros (Hp & Hf & k & Hk & Hnot). split_and!; [done..|].
    exists k. split; [done|]. intros Hin. by apply Hnot, Hsub.
  - intros Hsaved. by transitivity ids.
Qed.

Lemma pass_event_never_processed filter transform ids evs k :
  k ∈ ids →
  Forall (pass_event filter transform ids) evs →
  never_processed k evs.
Proof.
  intros Hin Hall. eapply Forall_impl; [exact Hall|].
  intros [task|task payload|saved]; cbn.
  - intros (k' & Hk' & Hnot) Hk. congruence.
  - intros (_ & _ & k' & Hk' & Hnot) Hk. congruence.
  - by intros _ [].
Qed.

Section ManyPasses.
Context {R : Type} (client : TickTickClient R) (skips : bool).
Context (filter : dict → result bool) (transform : dict → dict).
Context (body : dict → M (St R) unit) (pass : M (St R) Stats).
Hypothesis body_iteration : ∀ task σ σ' r,
  body task σ = (σ', r) → iteration client skips filter transform task σ σ' r.
Hypothesis filter_raises : ∀ task, filter task ≠ Raise TickTickAPIError.
Hypothesis pass_shape : ∀ σ,
  pass σ = pass_of client body (stored_ids (state_file σ)) σ.

(** One pass: the state file keeps what it had. *)
Lemma pass_keeps σ σ' res :
  pass σ = (σ', res) →
  stored_ids (state_file σ) ⊆ processed_task_ids σ' ∧
  stored_ids (state_file σ) ⊆ stored_ids (state_file σ') ∧
  ∃ evs, events_between σ σ' evs ∧
         Forall (pass_event filter transform (stored_ids (state_file σ))) evs.
Proof.
  rewrite pass_shape. intros Hpass.
  eapply pass_of_keeps in Hpass as (Hsub & Hfile & Hevs); [|done..].
  split_and!; [done| |done].
  by destruct Hfile as [-> | ->].
Qed.

Lemma run_passes_keep rs σ :
  stored_ids (state_file σ) ⊆ stored_ids (state_file (run_passes pass rs σ)) ∧
  ∃ evs, events_between σ (run_passes pass rs σ) evs ∧
         Forall (pass_event filter transform (stored_ids (state_file σ))) evs.
Proof.
  revert σ. induction rs as [|r rs IH]; intros σ; simpl.
  - split; [done|]. exists []. split; [|done].
    unfold events_between. by rewrite app_nil_r.
  - destruct (pass (with_remote r σ)) as [σ1 res] eqn:Hpass.
    apply pass_keeps in Hpass as (_ & Hsub1 & evs1 & Hevs1 & Hall1).
    destruct (IH σ1) as (Hsub2 & evs2 & Hevs2 & Hall2).
    cbn in *. split; [by transitivity (stored_ids (state_file σ1))|].
    exists (evs1 ++ evs2). split.
    + unfold events_between in *. cbn in *. by rewrite Hevs2, Hevs1, app_assoc.
    + apply Forall_app. split; [done|].
      eapply Forall_impl; [exact Hall2|]. intros ev.
      by apply pass_event_weaken.
Qed.

(** An identifier in the state file stays there, and the task it names
    is not processed, whatever the passes that follow. *)
Lemma run_passes_consumed rs σ k :
  k ∈ stored_ids (state_file σ) →
  k ∈ stored_ids (state_file (run_passes pass rs σ)) ∧
  ∃ evs, events_between σ (run_passes pass rs σ) evs ∧ never_processed k evs.
Proof.
  intros Hin. destruct (run_passes_keep rs σ) as (Hsub & evs & Hevs & Hall).
  split; [by apply Hsub|]. exists evs. split; [done|].
  by eapply pass_event_never_processed.
Qed.

(** A task that the filter rejects is in the processed set when the
    loop returns. *)
Lemma iterations_rejected tasks σ σ' task k :
  iterations client skips filter transform tasks σ σ' (Return ()) →
  task ∈ tasks →
  task_key task = Return k →
  (skips = true → truthy (dict_get task "id" JNull) = true) →
  filter task = Return false →
  k ∈ processed_task_ids σ'.
Proof.
  intros Hloop Hin Hk Hid Hf. remember (Return ()) as r eqn:Hr.
  induction Hloop as [|t tasks σ σ1 σ2 r Hone Hrest IH|]; [|subst r|done].
  - by apply elem_of_nil in Hin.
  - apply elem_of_cons in Hin as [<-|Hin]; [|by apply IH].
    apply iterations_keep in Hrest as (_ & Hsub & _). apply Hsub.
    inversion Hone; subst; cbn; try congruence.
    + rewrite Hid in *; done.
    + apply elem_of_union. left. apply elem_of_singleton. congruence.
Qed.

Lemma pass_consumes_rejected σ r' tasks task k σ1 s :
  get_completed_tasks client (remote σ) = (r', Return tasks) →
  task ∈ tasks →
  task_key task = Return k →
  (skips = true → truthy (dict_get task "id" JNull) = true) →
  filter task = Return false →
  pass σ = (σ1, Return s) →
  k ∈ processed_task_ids σ1 ∧
  k ∈ stored_ids (state_file σ1) ∧
  (∃ evs, events_between σ σ1 evs ∧ ∀ payload, EvCreate task payload ∉ evs) ∧
  ∀ rs, k ∈ stored_ids (state_file (run_passes pass rs σ1)) ∧
        ∃ evs, events_between σ1 (run_passes pass rs σ1) evs ∧
               never_processed k evs.
Proof.
  intros Hfetch Hin Hk Hid Hf Hpass.
  pose proof Hpass as Hkeeps. apply pass_keeps in Hkeeps as (_ & _ & evs & Hevs & Hall).
  rewrite pass_shape in Hpass.
  eapply pass_of_returns in Hpass as (σ2 & Hloop & _ & _ & Hids & Hfile & _);
    [|done..].
  assert (Hk1 : k ∈ processed_task_ids σ2) by by eapply iterations_rejected.
  assert (Hstored : k ∈ stored_ids (state_file σ1)) by by rewrite Hfile.
  split_and!.
  - by rewrite Hids.
  - done.
  - exists evs. split; [done|]. intros payload Hcreate.
    rewrite Forall_forall in Hall. destruct (Hall _ Hcreate) as (_ & Hone & _).
    congruence.
  - intros rs. by apply run_passes_consumed.
Qed.
End ManyPasses.

(** C4: a task with a valid identifier that the Filter Predicate
    rejects is, after one pass that returns its statistics, in the
    processed set and in the state file, and [create_task] was not
    called for it; in whatever passes follow, whatever the remote
    service then reports, the identifier stays in the state file and
    the filter (like [create_task]) is never at work again on a task
    with that identifier.  For [run_automation] of automations/ the
    identifier has to be truthy, since the script skips a task without
    one; [run_automation] of main.py has no such test. *)
Theorem rejected_task_is_consumed {R} (client : TickTickClient R)
    (config : Config) (σ : St R) (r' : R) (tasks : list dict)
    (task : dict) (k : hashable) (σ1 : St R) (s : Stats) :
  get_completed_tasks client (remote σ) = (r', Return tasks) →
  task ∈ tasks →
  task_key task = Return k →
  matches_filters task (name_filter config) (tag_filters config) = Return false →
  (truthy (dict_get task "id" JNull) = true →
   DuplicateCompletedTasks.run_automation client config σ = (σ1, Return s) →
   k ∈ processed_task_ids σ1 ∧
   k ∈ stored_ids (state_file σ1) ∧
   (∃ evs, events_between σ σ1 evs ∧ ∀ payload, EvCreate task payload ∉ evs) ∧
   ∀ rs,
     let σn := run_passes (DuplicateCompletedTasks.run_automation client config) rs σ1 in
     k ∈ stored_ids (state_file σn) ∧
     ∃ evs, events_between σ1 σn evs ∧ never_processed k evs) ∧
  (Main.run_automation client config σ = (σ1, Return s) →
   k ∈ processed_task_ids σ1 ∧
   k ∈ stored_ids (state_file σ1) ∧
   (∃ evs, events_between σ σ1 evs ∧ ∀ payload, EvCreate task payload ∉ evs) ∧
   ∀ rs,
     let σn := run_passes (Main.run_automation client config) rs σ1 in
     k ∈ stored_ids (state_file σn) ∧
     ∃ evs, events_between σ1 σn evs ∧ never_processed k evs).
Proof.
  intros Hfetch Hin Hk Hf. split.
  - intros Hid Hpass.
    eapply (pass_consumes_rejected client true
              (λ t, matches_filters t (name_filter config) (tag_filters config))
              create_duplicate_task
              (DuplicateCompletedTasks.loop_body client config)); try done.
    + apply duplicate_completed_tasks_iteration.
    + intros t. apply matches_filters_not_api.
    + intros σ0. apply duplicate_completed_tasks_pass.
  - intros Hpass.
    eapply (pass_consumes_rejected client false
              (TaskDuplicator._matches_filters (duplicator_of config))
              TaskDuplicator._create_duplicate_task
              (TaskDuplicator.loop_body client (duplicator_of config))); try done.
    + apply task_duplicator_iteration.
    + intros t. apply matches_filters_not_api.
    + intros σ0. apply main_run_automation_pass.
Qed.

Lemma rejected_task_is_consumed_witness :
  let client := serving [milk] in
  let σ1 := (DuplicateCompletedTasks.run_automation client foo_config first_run).1 in
  HStr "t1" ∈ stored_ids (state_file σ1) ∧
  (∃ evs, events_between first_run σ1 evs ∧ ∀ payload, EvCreate milk payload ∉ evs) ∧
  ∀ rs,
    let σn := run_passes (DuplicateCompletedTasks.run_automation client foo_config)
                rs σ1 in
    HStr "t1" ∈ stored_ids (state_file σn) ∧
    ∃ evs, events_between σ1 σn evs ∧ never_processed (HStr "t1") evs.
Proof.
  intros client σ1.
  assert (Hfetch : get_completed_tasks client (remote first_run) =
                   (0%nat, Return [milk])) by reflexivity.
  assert (Hin : milk ∈ [milk]) by apply list_elem_of_here.
  assert (Hk : task_key milk = Return (HStr "t1")) by reflexivity.
  assert (Hf : matches_filters milk (name_filter foo_config) (tag_filters foo_config) =
               Return false) by reflexivity.
  assert (Hpass : DuplicateCompletedTasks.run_automation client foo_config first_run =
                  (σ1, Return (mkStats 1 0 0 0))) by reflexivity.
  exact (proj2 (proj1 (rejected_task_is_consumed client foo_config first_run 0%nat
                         [milk] milk (HStr "t1") σ1 (mkStats 1 0 0 0)
                         Hfetch Hin Hk Hf) eq_refl Hpass)).
Defined.

(** ** The processed set over time *)



Section PendingVariant.
Import DuplicateCompletedWithoutDueDate.
Context {R : Type} (client : DuplicateCompletedWithoutDueDate.TickTickClient R).





End PendingVariant.



(** ** The end-to-end scenario *)

Section Duplicated.
Context {R : Type} (client : TickTickClient R).

Lemma duplicate_completed_tasks_duplicated config task k σ r' new_task :
  task_key task = Return k →
  truthy (dict_get task "id" JNull) = true →
  k ∉ processed_task_ids σ →
  matches_filters task (name_filter config) (tag_filters config) = Return true →
  create_task client (create_duplicate_task task) (remote σ) =
    (r', Return new_task) →
  DuplicateCompletedTasks.loop_body client config task σ =
    (mkSt r' (state_file σ) ({[k]} ∪ processed_task_ids σ)
       (incr_duplicated (incr_matched (incr_checked (stats σ))))
       (trace σ ++ [EvFilter task; EvCreate task (create_duplicate_task task)]),
     Return ()).
Proof.
  unfold task_key, DuplicateCompletedTasks.loop_body.
  intros Hk Hid Hin Hf Hc. run_monad.
  rewrite Hid, Hk. cbn [negb]. rewrite bool_decide_eq_false_2 by done.
  rewrite Hf. cbn [negb]. run_monad. rewrite Hc. by rewrite <- app_assoc.
Qed.
End Duplicated.

(** C9: from an empty record, with the name filter "Zap:" and no tag
    filter, when the remote service reports the one completed task
    {id: "t1", title: "Zap: buy milk", tags: ["errand"],
    dueDate: "2025-01-01"} and [create_task] succeeds, the pass returns
    checked=1, matched=1, duplicated=1, errors=0; its events are one call
    of the filter, one call of [create_task], whose payload has no
    "dueDate", and one write of the state file, which then holds
    exactly "t1". *)
Theorem end_to_end_scenario {R} (client : TickTickClient R) (σ : St R)
    (r1 r2 : R) (new_task : dict) :
  stored_ids (state_file σ) = ∅ →
  get_completed_tasks client (remote σ) = (r1, Return [milk]) →
  create_task client (create_duplicate_task milk) r1 = (r2, Return new_task) →
  ∃ σ',
    DuplicateCompletedTasks.run_automation client zap_config σ =
      (σ', Return (mkStats 1 1 1 0)) ∧
    events_between σ σ'
      [EvFilter milk; EvCreate milk (create_duplicate_task milk);
       EvSave {[HStr "t1"]}] ∧
    create_duplicate_task milk !! "dueDate" = None ∧
    state_file σ' = Some {[HStr "t1"]} ∧
    processed_task_ids σ' = {[HStr "t1"]}.
Proof.
  intros Hempty Hfetch Hcreate.
  rewrite (duplicate_completed_tasks_fetched client zap_config σ r1 [milk] Hfetch).
  rewrite Hempty. cbn [for_each]. unfold bind at 1.
  rewrite (duplicate_completed_tasks_duplicated client zap_config milk (HStr "t1")
             (start_of_loop σ r1 ∅) r2 new_task);
    [|reflexivity|reflexivity|apply not_elem_of_empty|reflexivity|exact Hcreate].
  cbn. rewrite union_empty_r_L. eexists. split; [reflexivity|].
  unfold events_between. cbn. split_and!; try reflexivity.
  by rewrite <- app_assoc.
Qed.

Lemma end_to_end_scenario_witness :
  stored_ids (state_file first_run) = ∅ ∧
  ∃ σ',
    DuplicateCompletedTasks.run_automation (serving [milk]) zap_config first_run =
      (σ', Return (mkStats 1 1 1 0)) ∧
    events_between first_run σ'
      [EvFilter milk; EvCreate milk (create_duplicate_task milk);
       EvSave {[HStr "t1"]}] ∧
    create_duplicate_task milk !! "dueDate" = None ∧
    state_file σ' = Some {[HStr "t1"]} ∧
    processed_task_ids σ' = {[HStr "t1"]}.
Proof.
  split; [reflexivity|].
  exact (end_to_end_scenario (serving [milk]) first_run 0%nat 1%nat
           (<["id" := JStr "new"]> (create_duplicate_task milk))
           eq_refl eq_refl eq_refl).
Defined.

(** ** Fetching the completed tasks *)

Lemma bind_returns {A B} (m : result A) (f : A → result B) b :
  m ≫= f = Return b → ∃ a, m = Return a ∧ f a = Return b.
Proof.
  unfold mbind, result_bind. destruct m as [a|e]; intros H; [by exists a|done].
Qed.

Section ReturnsNothing.
Context (http : TickTickAutomationsApi.Http).

(** Neither loop of [get_completed_tasks] adds to [completed_tasks]. *)
Lemma tasks_loop_keeps tasks completed_tasks res :
  TickTickAutomationsApi.tasks_loop tasks completed_tasks = Return res →
  res = completed_tasks.
Proof.
  induction tasks as [|task rest IH]; simpl.
  - by intros [= <-].
  - intros (status & _ & H)%bind_returns.
    destruct (negb (py_eq_int status 2)); [by apply IH|].
    apply bind_returns in H as (_ & _ & H).
    apply bind_returns in H as (_ & _ & H). by apply IH.
Qed.

Lemma projects_loop_keeps project_ids completed_tasks res :
  TickTickAutomationsApi.projects_loop http project_ids completed_tasks = Return res →
  res = completed_tasks.
Proof.
  revert completed_tasks.
  induction project_ids as [|project_id rest IH]; intros completed_tasks; simpl.
  - by intros [= <-].
  - intros (response & _ & H)%bind_returns.
    apply bind_returns in H as (tasks & _ & H).
    apply bind_returns in H as (kept & ->%tasks_loop_keeps & H).
    by apply IH.
Qed.

(** Whatever the remote service holds, what [get_completed_tasks]
    returns is the empty list. *)
Lemma get_completed_tasks_nothing project_id from_date res :
  TickTickAutomationsApi.get_completed_tasks http project_id from_date = Return res →
  res = [].
Proof.
  unfold TickTickAutomationsApi.get_completed_tasks.
  intros (project_ids & _ & H)%bind_returns. by apply projects_loop_keeps in H.
Qed.
End ReturnsNothing.

(** C8 fails on [get_completed_tasks] of ticktick_automations/: the one
    project of the remote service holds a task with status 2, and the
    list returned is empty. *)
Theorem get_completed_tasks_drops_completed_task :
  TickTickAutomationsApi.get_project_data one_completed_task (JStr "p1") =
    Return {[ "tasks" := JList [JObj (<["status" := JInt 2]> milk)] ]} ∧
  py_get (JObj (<["status" := JInt 2]> milk)) "status" (JInt 0) = Return (JInt 2) ∧
  TickTickAutomationsApi.get_completed_tasks one_completed_task JNull None = Return [].
Proof. split_and!; reflexivity. Qed.

Section EndpointList.
Context (GET_task_completed : option json → result json).
Context (fromisoformat : string → option UtilsApi.datetime).

(** [get_completed_tasks] of utils/ without [from_date]: the list of
    the endpoint as it is; the client does not look at the status. *)
Lemma utils_get_completed_tasks_all project_id tasks :
  GET_task_completed (if truthy project_id then Some project_id else None) =
    Return (JList tasks) →
  UtilsApi.get_completed_tasks GET_task_completed fromisoformat project_id None =
    Return tasks.
Proof.
  unfold UtilsApi.get_completed_tasks. intros ->. cbn. by destruct tasks.
Qed.

(** With [from_date], a task that is returned is one of the endpoint
    whose completion time is not before [from_date]. *)
Lemma filter_loop_kept tasks from_date filtered_tasks res :
  UtilsApi.filter_loop fromisoformat tasks from_date filtered_tasks = Return res →
  ∃ kept, res = filtered_tasks ++ kept ∧
    Forall (λ task, task ∈ tasks ∧
                    completed_not_before fromisoformat from_date task) kept.
Proof.
  revert filtered_tasks.
  induction tasks as [|task rest IH]; intros filtered_tasks; simpl.
  - intros [= <-]. exists []. by rewrite app_nil_r.
  - intros (completed_time_str & Hget & H)%bind_returns.
    assert (Hweaken : ∀ kept,
      Forall (λ t, t ∈ rest ∧ completed_not_before fromisoformat from_date t) kept →
      Forall (λ t, t ∈ task :: rest ∧
                   completed_not_before fromisoformat from_date t) kept).
    { intros kept Hall. eapply Forall_impl; [exact Hall|]. intros t [Hin Ht].
      split; [apply elem_of_cons; by right|done]. }
    destruct (truthy completed_time_str) eqn:Htruthy.
    + apply bind_returns in H as (keep & Hkeep & H).
      apply IH in H as (kept & -> & Hall). destruct keep.
      * exists (task :: kept). split; [by rewrite <- app_assoc|].
        apply Forall_cons. split; [|by apply Hweaken].
        split; [apply elem_of_cons; by left|].
        unfold UtilsApi.completed_since in Hkeep.
        destruct completed_time_str as [| | |s| |]; try done.
        destruct (fromisoformat (UtilsApi.replace_Z s)) as [completed_time|] eqn:Hiso;
          [|done].
        exists s, completed_time. split_and!; [done..|].
        unfold UtilsApi.datetime_ge in Hkeep.
        destruct (Bool.eqb _ _); [|done]. injection Hkeep as Hle.
        by apply Z.leb_le.
      * exists kept. split; [done|]. by apply Hweaken.
    + apply IH in H as (kept & -> & Hall). exists kept. split; [done|].
      by apply Hweaken.
Qed.
End EndpointList.

(** ** The other two scenarios of the specification *)

(** The same task with the name filter "Foo": no [create_task], the
    record ends with "t1", checked=1 and nothing else. *)
Example scenario_filter_rejects :
  DuplicateCompletedTasks.run_automation (serving [milk]) foo_config first_run =
    (mkSt 0%nat (Some {[HStr "t1"]}) {[HStr "t1"]} (mkStats 1 0 0 0)
       [EvFilter milk; EvSave {[HStr "t1"]}],
     Return (mkStats 1 0 0 0)).
Proof. vm_compute. reflexivity. Qed.

(** [create_task] raises the error of the remote service: the record
    ends empty, with one error counted; the next pass over the same data
    calls [create_task] again. *)
Example scenario_create_fails_then_retried :
  DuplicateCompletedTasks.run_automation (refusing [milk]) zap_config first_run =
    (mkSt 0%nat (Some ∅) ∅ (mkStats 1 1 0 1)
       [EvFilter milk; EvCreate milk (create_duplicate_task milk); EvSave ∅],
     Return (mkStats 1 1 0 1)) ∧
  trace (run_passes (DuplicateCompletedTasks.run_automation (refusing [milk]) zap_config)
           [0%nat; 0%nat] first_run) =
    [EvFilter milk; EvCreate milk (create_duplicate_task milk); EvSave ∅;
     EvFilter milk; EvCreate milk (create_duplicate_task milk); EvSave ∅].
Proof. split; vm_compute; reflexivity. Qed.

(** ** At the edge of the data model *)

(** A title that is [null] has no [.lower()]: with a name filter the
    Filter Predicate raises, and the exception leaves the pass. *)
Example matches_filters_title_null :
  matches_filters {[ "id" := JStr "t3"; "title" := JNull ]} (Some "Zap:") [] =
    Raise AttributeError.
Proof. reflexivity. Qed.

(** A task without an identifier: [run_automation] of automations/ only
    counts it, whatever the filter says; [TaskDuplicator] hashes [None]
    and, when the filter rejects the task, adds [None] to its set. *)
Example task_without_id :
  DuplicateCompletedTasks.loop_body (serving []) foo_config
    {[ "title" := JStr "Zap: no id" ]} first_run =
    (only_counted first_run, Return ()) ∧
  processed_task_ids
    (TaskDuplicator.loop_body (serving []) (duplicator_of foo_config)
       {[ "title" := JStr "Zap: no id" ]} first_run).1 = {[HNone]}.
Proof. split; vm_compute; reflexivity. Qed.

(** * Further properties of the code *)

(** ** The Task Transformer *)

Lemma payload_fields_cases (new_task payload task : dict) (always : list string) :
  has_exactly always new_task →
  ("items" ∉ always) →
  new_task !! "items" = None →
  payload = match task !! "items" with
            | Some items => if truthy items then <["items" := items]> new_task else new_task
            | None => new_task
            end →
  has_exactly always payload.
Proof.
  intros [Hall Honly] Hitems Hnone ->. transformer_cases task; [|done..].
  split.
  - intros key Hkey. rewrite lookup_insert_ne; [by apply Hall|].
    intros <-. done.
  - intros key. destruct (decide (key = "items")) as [->|Hne]; [by right|].
    rewrite lookup_insert_ne by done. apply Honly.
Qed.

Lemma six_fields (title project content desc priority tags : json) :
  has_exactly copied_fields
    ({[ "title" := title; "projectId" := project; "content" := content;
        "desc" := desc; "priority" := priority; "tags" := tags ]} : dict).
Proof.
  split.
  - intros key Hkey. unfold copied_fields in Hkey.
    repeat (apply elem_of_cons in Hkey as [->|Hkey]; [by eexists|]).
    by apply elem_of_nil in Hkey.
  - intros key [v Hv]. left. unfold copied_fields.
    repeat (apply lookup_insert_Some in Hv as [[<- _]|[_ Hv]];
            [by repeat constructor|]).
    apply lookup_singleton_Some in Hv as [<- _]. by repeat constructor.
Qed.

Lemma five_fields (title project content desc priority : json) :
  has_exactly ["title"; "projectId"; "content"; "desc"; "priority"]
    ({[ "title" := title; "projectId" := project; "content" := content;
        "desc" := desc; "priority" := priority ]} : dict).
Proof.
  split.
  - intros key Hkey.
    repeat (apply elem_of_cons in Hkey as [->|Hkey]; [by eexists|]).
    by apply elem_of_nil in Hkey.
  - intros key [v Hv]. left.
    repeat (apply lookup_insert_Some in Hv as [[<- _]|[_ Hv]];
            [by repeat constructor|]).
    apply lookup_singleton_Some in Hv as [<- _]. by repeat constructor.
Qed.

(** X1: the payload of [create_duplicate_task], and of the method of
    [TaskDuplicator], has the six copied fields, possibly "items", and
    nothing else: whatever the task holds, its "id", its "status" and
    every other field stay behind.  The payload of the pending-task
    variant has the five fields it copies, possibly "items", and nothing
    else. *)
Theorem payload_has_no_other_field (task : dict) :
  has_exactly copied_fields (create_duplicate_task task) ∧
  has_exactly copied_fields (TaskDuplicator._create_duplicate_task task) ∧
  has_exactly ["title"; "projectId"; "content"; "desc"; "priority"]
    (DuplicateCompletedWithoutDueDate.duplicate_task_without_due_date task) ∧
  create_duplicate_task task !! "id" = None ∧
  create_duplicate_task task !! "status" = None.
Proof.
  assert (Hpending : has_exactly ["title"; "projectId"; "content"; "desc"; "priority"]
            (DuplicateCompletedWithoutDueDate.duplicate_task_without_due_date task)).
  { eapply payload_fields_cases; [apply five_fields| |reflexivity|reflexivity].
    intros Hin.
    repeat (apply elem_of_cons in Hin as [Hin|Hin]; [discriminate|]).
    by apply elem_of_nil in Hin. }
  assert (Hcreate : has_exactly copied_fields (create_duplicate_task task)).
  { eapply payload_fields_cases; [apply six_fields| |reflexivity|reflexivity].
    unfold copied_fields. intros Hin.
    repeat (apply elem_of_cons in Hin as [Hin|Hin]; [discriminate|]).
    by apply elem_of_nil in Hin. }
  assert (Hnot : ∀ key, key ∉ copied_fields → key ≠ "items" →
                        create_duplicate_task task !! key = None).
  { intros key Hkey Hne. destruct (create_duplicate_task task !! key) eqn:Hlook; [|done].
    destruct Hcreate as [_ Honly]. destruct (Honly key) as [?|?]; by eauto. }
  split_and!; [done|done|done| |].
  - apply Hnot; [|done]. unfold copied_fields. intros Hin.
    repeat (apply elem_of_cons in Hin as [Hin|Hin]; [discriminate|]).
    by apply elem_of_nil in Hin.
  - apply Hnot; [|done]. unfold copied_fields. intros Hin.
    repeat (apply elem_of_cons in Hin as [Hin|Hin]; [discriminate|]).
    by apply elem_of_nil in Hin.
Qed.

(** X2: duplicating a payload gives the payload back: the transformer
    keeps what it has produced. *)
Theorem create_duplicate_task_idempotent (task : dict) :
  create_duplicate_task (create_duplicate_task task) = create_duplicate_task task.
Proof.
  unfold create_duplicate_task at 2 3. transformer_cases task.
  - unfold create_duplicate_task, dict_get. rewrite lookup_insert_eq, Htruthy.
    reflexivity.
  - reflexivity.
  - reflexivity.
Qed.

(** ** The Filter Predicate *)

Lemma lower_ascii_idempotent c : lower_ascii (lower_ascii c) = lower_ascii c.
Proof. by destruct c as [[] [] [] [] [] [] [] []]. Qed.

Lemma lower_idempotent s : lower (lower s) = lower s.
Proof.
  induction s as [|c s IH]; simpl; [done|]. by rewrite lower_ascii_idempotent, IH.
Qed.

Lemma lower_empty s : lower s = "" ↔ s = "".
Proof. destruct s; simpl; split; congruence. Qed.

Lemma eqb_empty_lower s : (lower s =? "")%string = (s =? "")%string.
Proof. by destruct s. Qed.

(** X3: the name filter is case-insensitive on both sides.  Two name
    filters with the same lower-case form accept the same tasks, and
    replacing the title of a task by one with the same lower-case form
    does not change the answer of the filter, in particular the filter
    and its lower-case form agree. *)
Theorem name_filter_is_case_insensitive
    (task : dict) (nf nf' title title' : string) (tag_filters : list string) :
  lower nf = lower nf' →
  task !! "title" = Some (JStr title) →
  lower title = lower title' →
  matches_filters task (Some nf) tag_filters =
    matches_filters task (Some nf') tag_filters ∧
  matches_filters task (Some nf) tag_filters =
    matches_filters task (Some (lower nf)) tag_filters ∧
  matches_filters (<["title" := JStr title']> task) (Some nf) tag_filters =
    matches_filters task (Some nf) tag_filters.
Proof.
  intros Hnf Htitle Hlower.
  assert (Hsame : ∀ a b, lower a = lower b →
            matches_filters task (Some a) tag_filters =
            matches_filters task (Some b) tag_filters).
  { intros a b Hab. unfold matches_filters.
    rewrite <- (eqb_empty_lower a), <- (eqb_empty_lower b), Hab. reflexivity. }
  split_and!.
  - by apply Hsame.
  - apply Hsame. by rewrite lower_idempotent.
  - unfold matches_filters, dict_get.
    rewrite lookup_insert_eq, lookup_insert_ne by done. rewrite Htitle.
    simpl. by rewrite Hlower.
Qed.

Lemma name_filter_is_case_insensitive_witness :
  lower "ZAP:" = lower "zap:" ∧
  milk !! "title" = Some (JStr "Zap: buy milk") ∧
  lower "Zap: buy milk" = lower "ZAP: BUY MILK" ∧
  matches_filters milk (Some "ZAP:") [] = matches_filters milk (Some "zap:") [] ∧
  matches_filters (<["title" := JStr "ZAP: BUY MILK"]> milk) (Some "ZAP:") [] =
    matches_filters milk (Some "ZAP:") [].
Proof.
  pose proof (name_filter_is_case_insensitive milk "ZAP:" "zap:"
                "Zap: buy milk" "ZAP: BUY MILK" [] eq_refl eq_refl eq_refl)
    as (H1 & _ & H3).
  split_and!; [reflexivity|reflexivity|reflexivity|exact H1|exact H3].
Defined.

(** The answers of [tag in container] for all tags: a function of the
    tag, or [TypeError] for every tag. *)
Lemma py_in_cases container :
  (∃ f, ∀ tag, py_in tag container = Return (f tag)) ∨
  (∀ tag, py_in tag container = Raise TypeError).
Proof.
  destruct container; simpl; try (by right);
    left; eexists (λ tag, _); intros tag; reflexivity.
Qed.

Lemma py_any_existsb (f : string → bool) (g : string → result bool) tags :
  (∀ tag, g tag = Return (f tag)) →
  py_any (g <$> tags) = Return (existsb f tags).
Proof.
  intros Hg. induction tags as [|t ts IH]; simpl; [done|].
  rewrite Hg. destruct (f t); simpl; [done|]. apply IH.
Qed.

Lemma existsb_same_elements (f : string → bool) (l l' : list string) :
  (∀ x, x ∈ l ↔ x ∈ l') → existsb f l = existsb f l'.
Proof.
  intros Hsame. apply eq_true_iff_eq. rewrite !existsb_exists.
  split; intros (x & Hin & Hx); exists x; (split; [|done]);
    apply list_elem_of_In, Hsame, list_elem_of_In, Hin.
Qed.

(** X4: the tag filter is a set: the order of the tags and their
    repetition do not matter, on any task whatever (also when the
    filter raises). *)
Theorem tag_filter_is_a_set
    (task : dict) (name_filter : option string) (tag_filters tag_filters' : list string) :
  (∀ tag, tag ∈ tag_filters ↔ tag ∈ tag_filters') →
  matches_filters task name_filter tag_filters =
    matches_filters task name_filter tag_filters'.
Proof.
  intros Hsame. unfold matches_filters.
  assert (Htags :
    match tag_filters with
    | [] => mret false
    | _ :: _ =>
        found ← py_any ((λ tag, py_in tag (dict_get task "tags" (JList [])))
                          <$> tag_filters);
        mret (negb found)
    end =
    match tag_filters' with
    | [] => mret false
    | _ :: _ =>
        found ← py_any ((λ tag, py_in tag (dict_get task "tags" (JList [])))
                          <$> tag_filters');
        mret (negb found)
    end :> result bool).
  { destruct (py_in_cases (dict_get task "tags" (JList []))) as [[f Hf]|Hraise].
    - rewrite !(py_any_existsb f _ _ Hf), (existsb_same_elements f _ _ Hsame).
      destruct tag_filters as [|t ts], tag_filters' as [|t' ts']; try reflexivity.
      + destruct (Hsame t') as [_ Hin]. exfalso.
        eapply elem_of_nil, Hin. apply elem_of_cons. by left.
      + destruct (Hsame t) as [Hin _]. exfalso.
        eapply elem_of_nil, Hin. apply elem_of_cons. by left.
    - destruct tag_filters as [|t ts], tag_filters' as [|t' ts']; try reflexivity.
      + destruct (Hsame t') as [_ Hin]. exfalso.
        eapply elem_of_nil, Hin. apply elem_of_cons. by left.
      + destruct (Hsame t) as [Hin _]. exfalso.
        eapply elem_of_nil, Hin. apply elem_of_cons. by left.
      + simpl. by rewrite !Hraise. }
  by rewrite Htags.
Qed.

Lemma tag_filter_is_a_set_witness :
  (∀ tag, tag ∈ ["home"; "errand"] ↔ tag ∈ ["errand"; "home"; "errand"]) ∧
  matches_filters milk None ["home"; "errand"] =
    matches_filters milk None ["errand"; "home"; "errand"].
Proof.
  assert (Hsame : ∀ tag, tag ∈ ["home"; "errand"] ↔ tag ∈ ["errand"; "home"; "errand"]).
  { intros tag. rewrite !elem_of_cons, !elem_of_nil. tauto. }
  split; [exact Hsame|].
  exact (tag_filter_is_a_set milk None ["home"; "errand"] ["errand"; "home"; "errand"]
           Hsame).
Defined.

(** ** Reading the configuration *)

Example split_examples :
  split ","%char "" = [""] ∧
  split ","%char "work, home,,errand " = ["work"; " home"; ""; "errand "] ∧
  parse_tag_filters "work, home,,errand " = ["work"; "home"; "errand"] ∧
  parse_tag_filters " , " = [] ∧
  parse_name_filter "  Zap: " = Some "Zap:" ∧
  parse_name_filter "   " = None.
Proof. repeat split. Qed.

Lemma rstrip_head c s :
  rstrip (String c s) = "" ∨ ∃ r, rstrip (String c s) = String c r.
Proof.
  simpl. destruct (rstrip s); [|by right; eexists].
  destruct (py_isspace c); [by left|by right; eexists].
Qed.

Lemma rstrip_keeps_head c s :
  py_isspace c = false → ∃ r, rstrip (String c s) = String c r.
Proof.
  intros Hc. simpl. destruct (rstrip s); [|by eexists]. rewrite Hc. by eexists.
Qed.

Lemma lstrip_cases s :
  lstrip s = "" ∨ ∃ c r, lstrip s = String c r ∧ py_isspace c = false.
Proof.
  induction s as [|c s IH]; simpl; [by left|].
  destruct (py_isspace c) eqn:Hc; [done|]. right. by exists c, s.
Qed.

Lemma lstrip_fixed c s : py_isspace c = false → lstrip (String c s) = String c s.
Proof. intros Hc. simpl. by rewrite Hc. Qed.

Lemma rstrip_idempotent s : rstrip (rstrip s) = rstrip s.
Proof.
  induction s as [|c s IH]; [done|]. simpl.
  destruct (rstrip s) as [|c' r] eqn:Hr.
  - destruct (py_isspace c) eqn:Hc; [done|]. simpl. by rewrite Hc.
  - change (rstrip (String c (String c' r))) with
      (match rstrip (String c' r) with
       | EmptyString => if py_isspace c then EmptyString else String c EmptyString
       | String c'' r' => String c (String c'' r')
       end).
    by rewrite IH.
Qed.

Lemma strip_idempotent s : strip (strip s) = strip s.
Proof.
  unfold strip. destruct (lstrip_cases s) as [->|(c & r & -> & Hc)]; [done|].
  destruct (rstrip_keeps_head c r Hc) as [r' Hr]. rewrite Hr.
  rewrite lstrip_fixed by done. rewrite <- Hr. apply rstrip_idempotent.
Qed.

Lemma contains_char_lstrip c s :
  contains_char c s = false → contains_char c (lstrip s) = false.
Proof.
  induction s as [|c' s IH]; simpl; [done|].
  intros [Hc Hs]%orb_false_iff. destruct (py_isspace c'); [by apply IH|].
  simpl. by rewrite Hc, Hs.
Qed.

Lemma contains_char_rstrip c s :
  contains_char c s = false → contains_char c (rstrip s) = false.
Proof.
  induction s as [|c' s IH]; simpl; [done|].
  intros [Hc Hs]%orb_false_iff. specialize (IH Hs).
  destruct (rstrip s) as [|c'' r].
  - destruct (py_isspace c'); [done|]. simpl. by rewrite Hc.
  - simpl in *. by rewrite Hc, IH.
Qed.

Lemma contains_char_strip c s :
  contains_char c s = false → contains_char c (strip s) = false.
Proof. intros Hs. by apply contains_char_rstrip, contains_char_lstrip. Qed.

Lemma split_nonempty sep s : split sep s ≠ [].
Proof.
  destruct s as [|c s]; simpl; [done|].
  destruct (Ascii.eqb c sep); [done|]. by destruct (split sep s).
Qed.

Lemma split_pieces sep s : Forall (λ piece, contains_char sep piece = false) (split sep s).
Proof.
  induction s as [|c s IH]; simpl; [by repeat constructor|].
  destruct (Ascii.eqb c sep) eqn:Hc; [by constructor|].
  destruct (split sep s) as [|piece pieces]; [by repeat constructor; simpl; rewrite Hc|].
  apply Forall_cons in IH as [Hpiece Hpieces].
  constructor; [|done]. simpl. by rewrite Hc.
Qed.

(** The tags that [load_config] keeps are clean. *)
Lemma parse_tag_filters_clean tag_filters_str :
  Forall clean_tag (parse_tag_filters tag_filters_str).
Proof.
  unfold parse_tag_filters.
  pose proof (split_pieces ","%char tag_filters_str) as Hpieces.
  induction (split ","%char tag_filters_str) as [|piece pieces IH]; simpl; [done|].
  apply Forall_cons in Hpieces as [Hpiece Hpieces].
  destruct (String.eqb_spec (strip piece) "") as [Hempty|Hne]; simpl; [by apply IH|].
  constructor; [|by apply IH].
  split_and!; [done|apply strip_idempotent|by apply contains_char_strip].
Qed.

Lemma split_piece sep piece :
  contains_char sep piece = false → split sep piece = [piece].
Proof.
  induction piece as [|c piece IH]; simpl; [done|].
  intros [Hc Hpiece]%orb_false_iff. rewrite Hc, IH; done.
Qed.

Lemma split_append sep piece rest :
  contains_char sep piece = false →
  split sep (String.append piece (String sep rest)) = piece :: split sep rest.
Proof.
  induction piece as [|c piece IH]; simpl.
  - by rewrite Ascii.eqb_refl.
  - intros [Hc Hpiece]%orb_false_iff. rewrite Hc, IH; done.
Qed.

Lemma split_join sep pieces :
  pieces ≠ [] →
  Forall (λ piece, contains_char sep piece = false) pieces →
  split sep (join sep pieces) = pieces.
Proof.
  intros Hne Hall. induction Hall as [|piece rest Hpiece Hrest IH]; [done|].
  destruct rest as [|piece' rest].
  - simpl. by apply split_piece.
  - change (join sep (piece :: piece' :: rest)) with
      (String.append piece (String sep (join sep (piece' :: rest)))).
    rewrite split_append by done. by rewrite IH.
Qed.

Lemma parse_join_clean tags :
  Forall clean_tag tags → parse_tag_filters (join ","%char tags) = tags.
Proof.
  intros Hclean. unfold parse_tag_filters.
  destruct tags as [|tag tags]; [done|].
  rewrite split_join; [|done|].
  - induction Hclean as [|t ts (Hne & Hstrip & _) _ IH]; [done|].
    cbn [fmap list_fmap List.filter]. rewrite Hstrip.
    destruct (String.eqb_spec t "") as [?|_]; [done|]. cbn [negb]. by f_equal.
  - eapply Forall_impl; [exact Hclean|]. by intros t (_ & _ & ?).
Qed.

Lemma duplicate_completed_tasks_load_config_filters env cfg :
  DuplicateCompletedTasksConfig.load_config env = Some cfg →
  DuplicateCompletedTasksConfig.filters cfg =
    {| name_filter := parse_name_filter (getenv env "TASK_NAME_FILTER" "");
       tag_filters := parse_tag_filters (getenv env "TASK_FILTER_TAGS" "") |}.
Proof.
  unfold DuplicateCompletedTasksConfig.load_config.
  destruct (_ || _); [done|]. destruct (unset_or_empty _); [done|].
  by intros [= <-].
Qed.

Lemma main_load_config_filters py_int env cfg :
  MainConfig.load_config py_int env = Some cfg →
  MainConfig.filters cfg =
    {| name_filter := parse_name_filter (getenv env "TASK_NAME_FILTER" "");
       tag_filters := parse_tag_filters (getenv env "TASK_FILTER_TAGS" "") |}.
Proof.
  unfold MainConfig.load_config.
  destruct (unset_or_empty _); [done|]. by intros [= <-].
Qed.

(** X5: every tag filter that [load_config] returns, in either script,
    is not empty, has no white space at either end and no comma,
    whatever TASK_FILTER_TAGS holds. *)
Theorem load_config_tag_filters_are_clean
    (py_int : string → option Z) (env : gmap string string) :
  (∀ cfg, DuplicateCompletedTasksConfig.load_config env = Some cfg →
     Forall clean_tag (tag_filters (DuplicateCompletedTasksConfig.filters cfg))) ∧
  (∀ cfg, MainConfig.load_config py_int env = Some cfg →
     Forall clean_tag (tag_filters (MainConfig.filters cfg))).
Proof.
  split; intros cfg Hcfg.
  - rewrite (duplicate_completed_tasks_load_config_filters env cfg Hcfg).
    apply parse_tag_filters_clean.
  - rewrite (main_load_config_filters py_int env cfg Hcfg).
    apply parse_tag_filters_clean.
Qed.

Lemma load_config_tag_filters_are_clean_witness :
  ∃ cfg, DuplicateCompletedTasksConfig.load_config full_env = Some cfg ∧
         tag_filters (DuplicateCompletedTasksConfig.filters cfg) = ["errand"; "home"] ∧
         Forall clean_tag (tag_filters (DuplicateCompletedTasksConfig.filters cfg)).
Proof.
  eexists. split; [reflexivity|]. split; [reflexivity|].
  exact (proj1 (load_config_tag_filters_are_clean (λ _, None) full_env) _ eq_refl).
Defined.

(** X6: round trip of the tag filters: when TASK_FILTER_TAGS is the
    clean tags [tags] joined with commas, [load_config] returns exactly
    [tags], in that order. *)
Theorem load_config_reads_joined_tags
    (py_int : string → option Z) (env : gmap string string) (tags : list string) :
  Forall clean_tag tags →
  env !! "TASK_FILTER_TAGS" = Some (join ","%char tags) →
  (∀ cfg, DuplicateCompletedTasksConfig.load_config env = Some cfg →
     tag_filters (DuplicateCompletedTasksConfig.filters cfg) = tags) ∧
  (∀ cfg, MainConfig.load_config py_int env = Some cfg →
     tag_filters (MainConfig.filters cfg) = tags).
Proof.
  intros Hclean Henv. split; intros cfg Hcfg.
  - rewrite (duplicate_completed_tasks_load_config_filters env cfg Hcfg).
    unfold getenv. rewrite Henv. by apply parse_join_clean.
  - rewrite (main_load_config_filters py_int env cfg Hcfg).
    unfold getenv. rewrite Henv. by apply parse_join_clean.
Qed.

Lemma load_config_reads_joined_tags_witness :
  Forall clean_tag ["errand"; "home"] ∧
  full_env !! "TASK_FILTER_TAGS" = Some (join ","%char ["errand"; "home"]) ∧
  ∀ cfg, DuplicateCompletedTasksConfig.load_config full_env = Some cfg →
    tag_filters (DuplicateCompletedTasksConfig.filters cfg) = ["errand"; "home"].
Proof.
  assert (Hclean : Forall clean_tag ["errand"; "home"]).
  { repeat (constructor; [by split_and!|]). constructor. }
  assert (Henv : full_env !! "TASK_FILTER_TAGS" = Some (join ","%char ["errand"; "home"]))
    by reflexivity.
  split; [exact Hclean|]. split; [exact Henv|].
  exact (proj1 (load_config_reads_joined_tags (λ _, None) full_env ["errand"; "home"]
                  Hclean Henv)).
Defined.

Lemma parse_name_filter_spec value :
  parse_name_filter value ≠ Some "" ∧
  (parse_name_filter value = None ↔ strip value = "") ∧
  (∀ nf, parse_name_filter value = Some nf → nf = strip value ∧ strip nf = nf).
Proof.
  unfold parse_name_filter. destruct (String.eqb_spec (strip value) "") as [Hs|Hs].
  - split_and!; [done|done|done].
  - split_and!.
    + by intros [= ?].
    + split; [done|]. intros ?. done.
    + intros nf [= <-]. split; [done|]. apply strip_idempotent.
Qed.

(** X7: the name filter that [load_config] returns, in either script, is
    never the empty string: it is [None] exactly when TASK_NAME_FILTER
    is unset or blank, and otherwise the value without the white space
    at its ends.  So on a loaded configuration the test [if name_filter:]
    of the Filter Predicate is the test for [None]. *)
Theorem load_config_name_filter
    (py_int : string → option Z) (env : gmap string string) (filters : Config) :
  (∃ cfg, DuplicateCompletedTasksConfig.load_config env = Some cfg ∧
          DuplicateCompletedTasksConfig.filters cfg = filters) ∨
  (∃ cfg, MainConfig.load_config py_int env = Some cfg ∧
          MainConfig.filters cfg = filters) →
  name_filter filters ≠ Some "" ∧
  (name_filter filters = None ↔ strip (getenv env "TASK_NAME_FILTER" "") = "") ∧
  (∀ nf, name_filter filters = Some nf →
     nf = strip (getenv env "TASK_NAME_FILTER" "") ∧ strip nf = nf) ∧
  (name_filter_absent (name_filter filters) ↔ name_filter filters = None).
Proof.
  intros Hcfg.
  assert (Hname : name_filter filters =
                  parse_name_filter (getenv env "TASK_NAME_FILTER" "")).
  { destruct Hcfg as [(cfg & Hcfg & <-)|(cfg & Hcfg & <-)].
    - by rewrite (duplicate_completed_tasks_load_config_filters env cfg Hcfg).
    - by rewrite (main_load_config_filters py_int env cfg Hcfg). }
  rewrite Hname.
  destruct (parse_name_filter_spec (getenv env "TASK_NAME_FILTER" ""))
    as (Hne & Hnone & Hsome).
  split_and!; [done|done|done|].
  unfold name_filter_absent. split; [|by left]. by intros [?|?].
Qed.

Lemma load_config_name_filter_witness :
  ∃ cfg, DuplicateCompletedTasksConfig.load_config full_env = Some cfg ∧
    name_filter (DuplicateCompletedTasksConfig.filters cfg) = Some "Zap:" ∧
    (name_filter_absent (name_filter (DuplicateCompletedTasksConfig.filters cfg)) ↔
     name_filter (DuplicateCompletedTasksConfig.filters cfg) = None).
Proof.
  eexists. split; [reflexivity|]. split; [reflexivity|].
  refine (proj2 (proj2 (proj2 (load_config_name_filter (λ _, None) full_env _
                                 (or_introl (ex_intro _ _ (conj eq_refl eq_refl))))))).
Defined.

(** X8: [load_config] fails, with [ValueError], exactly when a
    credential is unset or empty: the client identifier, the client
    secret or the access token for the script of automations/, the
    access token for main.py.  No value of the filters or of the
    polling interval makes it fail. *)
Theorem load_config_fails_without_credentials
    (py_int : string → option Z) (env : gmap string string) :
  (DuplicateCompletedTasksConfig.load_config env = None ↔
     unset_or_empty (env !! "TICKTICK_CLIENT_ID") = true ∨
     unset_or_empty (env !! "TICKTICK_CLIENT_SECRET") = true ∨
     unset_or_empty (env !! "TICKTICK_ACCESS_TOKEN") = true) ∧
  (MainConfig.load_config py_int env = None ↔
     unset_or_empty (env !! "TICKTICK_ACCESS_TOKEN") = true).
Proof.
  unfold DuplicateCompletedTasksConfig.load_config, MainConfig.load_config.
  destruct (unset_or_empty (env !! "TICKTICK_CLIENT_ID")),
    (unset_or_empty (env !! "TICKTICK_CLIENT_SECRET")),
    (unset_or_empty (env !! "TICKTICK_ACCESS_TOKEN")); simpl;
    split; split; try done; try (by intros [?|[?|?]]); eauto.
Qed.

(** ** The state file as JSON *)

Lemma py_hash_to_json h : py_hash (to_json h) = Return h.
Proof. by destruct h. Qed.

Lemma hash_all_to_json ids :
  hash_all (to_json <$> ids) = Return (list_to_set ids).
Proof.
  induction ids as [|h ids IH]; [done|].
  cbn [fmap list_fmap hash_all]. rewrite py_hash_to_json. cbn.
  change (list_fmap hashable json to_json ids) with (to_json <$> ids).
  by rewrite IH.
Qed.

Lemma listing_loads ids now :
  Helpers.get_processed_tasks (listing ids now) = Return (list_to_set ids) ∧
  TaskDuplicatorFile._load_processed_tasks (listing ids now) = list_to_set ids.
Proof.
  unfold Helpers.get_processed_tasks, TaskDuplicatorFile._load_processed_tasks,
    listing, Helpers.load_state, py_get, py_set, dict_get.
  rewrite lookup_insert_eq. cbn. by rewrite hash_all_to_json.
Qed.

(** X9: round trip of the state file.  A file that lists identifiers, in
    any order and with repetitions, is read as their set by
    [get_processed_tasks] and by [_load_processed_tasks]; so what either
    script saves, either script loads back as the same set, whatever
    the time stamp. *)
Theorem state_file_round_trip (task_ids : gset hashable) (now : string)
    (ids : list hashable) :
  Helpers.get_processed_tasks (listing ids now) = Return (list_to_set ids) ∧
  TaskDuplicatorFile._load_processed_tasks (listing ids now) = list_to_set ids ∧
  Helpers.get_processed_tasks (Helpers.save_processed_tasks task_ids now) =
    Return task_ids ∧
  TaskDuplicatorFile._load_processed_tasks
    (TaskDuplicatorFile._save_processed_tasks task_ids now) = task_ids ∧
  Helpers.get_processed_tasks
    (TaskDuplicatorFile._save_processed_tasks task_ids now) = Return task_ids ∧
  TaskDuplicatorFile._load_processed_tasks
    (Helpers.save_processed_tasks task_ids now) = task_ids.
Proof.
  destruct (listing_loads ids now) as [Hget Hload].
  destruct (listing_loads (elements task_ids) now) as [Hget' Hload'].
  rewrite list_to_set_elements_L in Hget', Hload'.
  by split_and!.
Qed.

(** X10: a state file that is missing or unreadable is an empty record
    for both loaders.  On a file that holds JSON, [_load_processed_tasks]
    returns what [get_processed_tasks] returns, and the empty set where
    [get_processed_tasks] raises: [AttributeError] for JSON that is not
    an object, [TypeError] for a list of identifiers that cannot be
    iterated or hashed. *)
Theorem state_file_loaders (content : file_content) :
  Helpers.get_processed_tasks Missing = Return ∅ ∧
  Helpers.get_processed_tasks Unreadable = Return ∅ ∧
  TaskDuplicatorFile._load_processed_tasks Missing = ∅ ∧
  TaskDuplicatorFile._load_processed_tasks Unreadable = ∅ ∧
  match Helpers.get_processed_tasks content with
  | Return ids => TaskDuplicatorFile._load_processed_tasks content = ids
  | Raise e =>
      TaskDuplicatorFile._load_processed_tasks content = ∅ ∧
      ∃ v, content = Holds v ∧
        ((e = AttributeError ∧ ∀ o, v ≠ JObj o) ∨
         (e = TypeError ∧ ∃ o, v = JObj o))
  end.
Proof.
  split_and!; try reflexivity.
  destruct content as [| |v]; try reflexivity.
  unfold Helpers.get_processed_tasks, TaskDuplicatorFile._load_processed_tasks,
    Helpers.load_state.
  destruct (py_get v "processed_tasks" (JList []) ≫= py_set) as [ids|e] eqn:Hload;
    [done|].
  split; [done|]. exists v. split; [done|].
  destruct v as [| | | | |o]; try (injection Hload as <-; by left).
  right. split; [|by exists o].
  cbn in Hload. unfold py_set in Hload.
  apply bind_raises in Hload as [Hiter|(elems & _ & Hhash)].
  - destruct (dict_get o "processed_tasks" (JList [])); cbn in Hiter; congruence.
  - clear -Hhash. induction elems as [|x xs IH]; [done|].
    cbn in Hhash. apply bind_raises in Hhash as [Hx|(k & _ & Hrest)].
    + by apply py_hash_raises in Hx.
    + apply bind_raises in Hrest as [Hxs|(ids & _ & ?)]; [by apply IH|done].
Qed.

(** ** The events of a pass *)

Section ModeAFacts.
Context {R : Type} (client : TickTickClient R) (config : Config).

Lemma run_pass_shape p σ :
  run_pass client config p σ =
  pass_of client (body_of client config p) (record_at_start p σ) σ.
Proof.
  destruct p.
  - apply duplicate_completed_tasks_pass.
  - apply main_run_automation_pass.
  - apply process_completed_tasks_pass.
Qed.

Lemma body_of_iteration p task σ σ' r :
  body_of client config p task σ = (σ', r) →
  iteration client (skips_of p)
    (λ t, matches_filters t (name_filter config) (tag_filters config))
    create_duplicate_task task σ σ' r.
Proof.
  intros Hbody. destruct p.
  - exact (duplicate_completed_tasks_iteration client config task σ σ' r Hbody).
  - exact (task_duplicator_iteration client (duplicator_of config) task σ σ' r Hbody).
  - exact (task_duplicator_iteration client (duplicator_of config) task σ σ' r Hbody).
Qed.
End ModeAFacts.

Lemma events_between_unique {R} (σ σ' : St R) evs evs' :
  events_between σ σ' evs → events_between σ σ' evs' → evs = evs'.
Proof.
  unfold events_between. intros -> Heq. by apply app_inv_head in Heq.
Qed.

Lemma created_app evs evs' : created (evs ++ evs') = created evs ++ created evs'.
Proof.
  induction evs as [|[task|task payload|ids] evs IH]; simpl; [done|done| |done].
  by rewrite IH.
Qed.

Lemma loop_event_not_save filter transform tasks ids ev :
  loop_event filter transform tasks ids ev → ¬ is_save ev.
Proof. destruct ev; cbn; tauto. Qed.

Section Created.
Context {R : Type} (client : TickTickClient R) (skips : bool).
Context (filter : dict → result bool) (transform : dict → dict).

Lemma iteration_created task σ σ' r :
  iteration client skips filter transform task σ σ' r →
  ∃ evs, events_between σ σ' evs ∧ (created evs = [] ∨ created evs = [task]).
Proof.
  destruct 1; unfold after_iteration, events_between; cbn;
    eexists; (split; [reflexivity|]); cbn; by eauto.
Qed.

(** The calls of [create_task] follow the order of the list. *)
Lemma iterations_created tasks σ σ' r :
  iterations client skips filter transform tasks σ σ' r →
  ∃ evs, events_between σ σ' evs ∧ created evs `sublist_of` tasks.
Proof.
  induction 1 as [σ|task tasks σ σ1 σ2 r Hone Hrest IH|task tasks σ σ1 e Hone].
  - exists []. split; [|done]. unfold events_between. by rewrite app_nil_r.
  - apply iteration_created in Hone as (evs1 & Hevs1 & Hcreated).
    destruct IH as (evs2 & Hevs2 & Hsub).
    exists (evs1 ++ evs2). split.
    + unfold events_between in *. by rewrite Hevs2, Hevs1, app_assoc.
    + rewrite created_app. destruct Hcreated as [-> | ->]; simpl.
      * by apply sublist_cons.
      * by apply sublist_skip.
  - apply iteration_created in Hone as (evs1 & Hevs1 & Hcreated).
    exists evs1. split; [done|]. destruct Hcreated as [-> | ->].
    + apply sublist_nil_l.
    + apply sublist_skip, sublist_nil_l.
Qed.
End Created.

Section PassTrace.
Context {R : Type} (client : TickTickClient R) (skips : bool).
Context (filter : dict → result bool) (transform : dict → dict).
Context (body : dict → M (St R) unit).
Hypothesis body_iteration : ∀ task σ σ' r,
  body task σ = (σ', r) → iteration client skips filter transform task σ σ' r.
Hypothesis filter_raises : ∀ task, filter task ≠ Raise TickTickAPIError.

(** The three ways through a pass. *)
Lemma pass_of_trace ids σ σ' res :
  pass_of client body ids σ = (σ', res) →
  ∃ evs0, Forall (λ ev, ¬ is_save ev) evs0 ∧
    ((∃ r' tasks s,
        get_completed_tasks client (remote σ) = (r', Return tasks) ∧
        res = Return s ∧
        events_between σ σ' (evs0 ++ [EvSave (processed_task_ids σ')]) ∧
        state_file σ' = Some (processed_task_ids σ')) ∨
     (events_between σ σ' evs0 ∧ state_file σ' = state_file σ ∧
      ((∃ r' e, get_completed_tasks client (remote σ) = (r', Raise e) ∧ evs0 = []) ∨
       (∃ e, res = Raise e ∧ e ≠ TickTickAPIError)))).
Proof.
  unfold pass_of.
  destruct (get_completed_tasks client (remote σ)) as [r' [tasks|e]] eqn:Hfetch.
  - intros [(σ1 & Hloop & -> & ->)|(e & Hloop & Hne & ->)]%(finish_pass_cases
      client skips filter transform body body_iteration filter_raises).
    + apply iterations_keep in Hloop as (Hfile & _ & _ & evs & Hevs & Hall).
      exists evs. split.
      * eapply Forall_impl; [exact Hall|]. intros ev. apply loop_event_not_save.
      * left. exists r', tasks, (stats σ1). split_and!; try done.
        unfold events_between in *. cbn in *. by rewrite Hevs, app_assoc.
    + apply iterations_keep in Hloop as (Hfile & _ & _ & evs & Hevs & Hall).
      exists evs. split.
      * eapply Forall_impl; [exact Hall|]. intros ev. apply loop_event_not_save.
      * right. split_and!; [done|done|]. right. by exists e.
  - intros Hend. exists []. split; [done|].
    assert (events_between σ σ' [] ∧ state_file σ' = state_file σ) as [Hevs Hfile].
    { unfold events_between.
      destruct e; injection Hend as <- _; cbn; by rewrite app_nil_r. }
    right. split_and!; [done|done|]. left. by exists r', e.
Qed.
End PassTrace.

(** X11: a pass writes the state file at most once, as its last act,
    with the processed set it ends with.  It writes it exactly when the
    fetch succeeded and the loop went through all tasks without raising;
    otherwise (the fetch failed, or an exception left the loop) the file
    is as it was. *)
Theorem pass_saves_once_at_the_end {R} (client : TickTickClient R)
    (config : Config) (p : mode_a_pass) (σ σ' : St R) (res : result Stats) :
  run_pass client config p σ = (σ', res) →
  ∃ evs0, Forall (λ ev, ¬ is_save ev) evs0 ∧
    ((∃ r' tasks s,
        get_completed_tasks client (remote σ) = (r', Return tasks) ∧
        res = Return s ∧
        events_between σ σ' (evs0 ++ [EvSave (processed_task_ids σ')]) ∧
        state_file σ' = Some (processed_task_ids σ')) ∨
     (events_between σ σ' evs0 ∧ state_file σ' = state_file σ ∧
      ((∃ r' e, get_completed_tasks client (remote σ) = (r', Raise e) ∧ evs0 = []) ∨
       (∃ e, res = Raise e ∧ e ≠ TickTickAPIError)))).
Proof.
  rewrite run_pass_shape.
  apply (pass_of_trace client (skips_of p)
           (λ t, matches_filters t (name_filter config) (tag_filters config))
           create_duplicate_task (body_of client config p)
           (body_of_iteration client config p)).
  intros task. apply matches_filters_not_api.
Qed.

Lemma pass_saves_once_at_the_end_witness :
  ∃ evs0, Forall (λ ev, ¬ is_save ev) evs0 ∧
    events_between first_run
      (run_pass (serving [milk; bread]) zap_config script_pass first_run).1
      (evs0 ++ [EvSave {[HStr "t1"; HStr "t2"]}]).
Proof.
  destruct (pass_saves_once_at_the_end (serving [milk; bread]) zap_config script_pass
              first_run _ _ (surjective_pairing _)) as (evs0 & Hall & Hcases).
  exists evs0. split; [exact Hall|].
  assert (Hres : (run_pass (serving [milk; bread]) zap_config script_pass first_run).2 =
                 Return (mkStats 2 2 2 0)) by (vm_compute; reflexivity).
  assert (Hids : processed_task_ids
                   (run_pass (serving [milk; bread]) zap_config script_pass first_run).1 =
                 {[HStr "t1"; HStr "t2"]}) by (vm_compute; reflexivity).
  destruct Hcases
    as [(r' & tasks & s & _ & _ & Hevs & _)|(_ & _ & [(r' & e & Hf & _)|(e & He & _)])].
  - rewrite Hids in Hevs. exact Hevs.
  - discriminate Hf.
  - rewrite Hres in He. discriminate He.
Defined.

Section PassCreated.
Context {R : Type} (client : TickTickClient R) (skips : bool).
Context (filter : dict → result bool) (transform : dict → dict).
Context (body : dict → M (St R) unit).
Hypothesis body_iteration : ∀ task σ σ' r,
  body task σ = (σ', r) → iteration client skips filter transform task σ σ' r.
Hypothesis filter_raises : ∀ task, filter task ≠ Raise TickTickAPIError.

(** The events of a pass whose fetch succeeded. *)
Lemma pass_of_created ids σ σ' res r' tasks :
  get_completed_tasks client (remote σ) = (r', Return tasks) →
  pass_of client body ids σ = (σ', res) →
  ∃ evs, events_between σ σ' evs ∧ created evs `sublist_of` tasks ∧
         Forall (pass_event filter transform ids) evs.
Proof.
  intros Hfetch Hpass.
  destruct (pass_of_keeps client skips filter transform body body_iteration
              filter_raises ids σ σ' res Hpass) as (_ & _ & evs & Hevs & Hall).
  exists evs. split_and!; [done| |done].
  revert Hpass. unfold pass_of. rewrite Hfetch.
  intros [(σ1 & Hloop & -> & ->)|(e & Hloop & Hne & ->)]%(finish_pass_cases
    client skips filter transform body body_iteration filter_raises).
  - apply iterations_created in Hloop as (evs1 & Hevs1 & Hsub).
    assert (evs = evs1 ++ [EvSave (processed_task_ids σ1)]) as ->.
    { apply (events_between_unique _ _ _ _ Hevs).
      unfold events_between in *. cbn in *. by rewrite Hevs1, app_assoc. }
    rewrite created_app. simpl. by rewrite app_nil_r.
  - apply iterations_created in Hloop as (evs1 & Hevs1 & Hsub).
    by rewrite (events_between_unique _ _ _ _ Hevs Hevs1).
Qed.
End PassCreated.

Lemma run_pass_created {R} (client : TickTickClient R) (config : Config)
    (p : mode_a_pass) (σ σ' : St R) (res : result Stats) (r' : R)
    (tasks : list dict) :
  get_completed_tasks client (remote σ) = (r', Return tasks) →
  run_pass client config p σ = (σ', res) →
  ∃ evs, events_between σ σ' evs ∧ created evs `sublist_of` tasks ∧
         Forall (pass_event
                   (λ t, matches_filters t (name_filter config) (tag_filters config))
                   create_duplicate_task (record_at_start p σ)) evs.
Proof.
  rewrite run_pass_shape. intros Hfetch.
  apply (pass_of_created client (skips_of p)
           (λ t, matches_filters t (name_filter config) (tag_filters config))
           create_duplicate_task (body_of client config p)
           (body_of_iteration client config p)
           (λ task, matches_filters_not_api task _ _)
           (record_at_start p σ) σ σ' res r' tasks Hfetch).
Qed.

(** X12: in a pass whose fetch succeeded, the tasks for which
    [create_task] is called are, in the order of the calls, a
    subsequence of the fetched list: no task that was not fetched, none
    out of order, and each position of the list at most once.  Every call
    is for a task the filter accepts and whose identifier is not in the
    record the pass started from, with the payload of
    [create_duplicate_task], which has no schedule field and no "id". *)
Theorem creates_follow_the_fetched_list {R} (client : TickTickClient R)
    (config : Config) (p : mode_a_pass) (σ σ' : St R) (res : result Stats)
    (r' : R) (tasks : list dict) :
  get_completed_tasks client (remote σ) = (r', Return tasks) →
  run_pass client config p σ = (σ', res) →
  ∃ evs, events_between σ σ' evs ∧
    created evs `sublist_of` tasks ∧
    ∀ task payload, EvCreate task payload ∈ evs →
      payload = create_duplicate_task task ∧
      omits schedule_fields payload ∧
      payload !! "id" = None ∧
      matches_filters task (name_filter config) (tag_filters config) = Return true ∧
      ∃ k, task_key task = Return k ∧ k ∉ record_at_start p σ.
Proof.
  intros Hfetch Hpass.
  destruct (run_pass_created client config p σ σ' res r' tasks Hfetch Hpass)
    as (evs & Hevs & Hsub & Hall).
  exists evs. split_and!; [done|done|].
  intros task payload Hin. rewrite Forall_forall in Hall.
  destruct (Hall _ Hin) as (-> & Hf & Hk).
  split_and!; [done| | |done|done].
  - apply create_duplicate_task_spec.
  - unfold create_duplicate_task. transformer_cases task; by simplify_map_eq.
Qed.

Lemma creates_follow_the_fetched_list_witness :
  ∃ evs, events_between first_run
           (run_pass (serving [milk; bread]) zap_config main_pass first_run).1 evs ∧
         created evs `sublist_of` [milk; bread].
Proof.
  destruct (creates_follow_the_fetched_list (serving [milk; bread]) zap_config
              main_pass first_run _ _ 0%nat [milk; bread] eq_refl
              (surjective_pairing _))
    as (evs & Hevs & Hsub & _).
  exists evs. split; [exact Hevs|exact Hsub].
Defined.

(** ** What a pass that returns has done with each task *)

Lemma accounted_mono skips ids ids' task :
  ids ⊆ ids' → accounted skips ids task → accounted skips ids' task.
Proof.
  intros Hsub [?|(k & Hk & Hin)]; [by left|right]. exists k. split; [done|].
  by apply Hsub.
Qed.

Section Attended.
Context {R : Type} (client : TickTickClient R) (skips : bool).
Context (filter : dict → result bool) (transform : dict → dict).

Lemma iteration_attended task σ σ' :
  iteration client skips filter transform task σ σ' (Return ()) →
  ∃ evs, events_between σ σ' evs ∧ attended skips transform evs σ σ' task.
Proof.
  unfold attended, accounted, events_between.
  inversion 1; subst; cbn; eexists; (split; [reflexivity|]).
  - left. by left.
  - left. right. by exists k.
  - left. right. exists k. split; [done|]. apply elem_of_union. left.
    by apply elem_of_singleton.
  - left. right. exists k. split; [done|]. apply elem_of_union. left.
    by apply elem_of_singleton.
  - right. split; [|lia]. apply elem_of_cons. right. by apply list_elem_of_singleton.
Qed.

Lemma iterations_attended tasks σ σ' :
  iterations client skips filter transform tasks σ σ' (Return ()) →
  ∃ evs, events_between σ σ' evs ∧ Forall (attended skips transform evs σ σ') tasks.
Proof.
  remember (Return ()) as r eqn:Hr.
  induction 1 as [σ|task tasks σ σ1 σ2 r Hone Hrest IH|]; [|subst r|done].
  - exists []. split; [|done]. unfold events_between. by rewrite app_nil_r.
  - destruct (IH eq_refl) as (evs2 & Hevs2 & Hall).
    pose proof (iteration_counts _ _ _ _ _ _ _ Hone) as (_ & _ & _ & _ & Herr1 & _).
    pose proof (iterations_count _ _ _ _ _ _ _ Hrest) as (_ & _ & _ & _ & Herr2 & _).
    pose proof (iterations_keep _ _ _ _ _ _ _ _ Hrest) as (_ & Hsub & _).
    apply iteration_attended in Hone as (evs1 & Hevs1 & Hhead).
    exists (evs1 ++ evs2). split.
    { unfold events_between in *. by rewrite Hevs2, Hevs1, app_assoc. }
    constructor.
    + destruct Hhead as [Hacc|[Hin Hlt]].
      * left. by eapply accounted_mono.
      * right. split; [|lia]. apply elem_of_app. by left.
    + eapply Forall_impl; [exact Hall|]. intros t [Hacc|[Hin Hlt]].
      * by left.
      * right. split; [|lia]. apply elem_of_app. by right.
Qed.
End Attended.

Section ModeAAttended.
Context {R : Type} (client : TickTickClient R) (config : Config).

Lemma run_pass_returns p σ σ' r' tasks s :
  get_completed_tasks client (remote σ) = (r', Return tasks) →
  run_pass client config p σ = (σ', Return s) →
  ∃ σ1, iterations client (skips_of p)
          (λ t, matches_filters t (name_filter config) (tag_filters config))
          create_duplicate_task tasks
          (start_of_loop σ r' (record_at_start p σ)) σ1 (Return ()) ∧
        s = stats σ1 ∧
        σ' = mkSt (remote σ1) (Some (processed_task_ids σ1))
               (processed_task_ids σ1) (stats σ1)
               (trace σ1 ++ [EvSave (processed_task_ids σ1)]).
Proof.
  rewrite run_pass_shape. unfold pass_of. intros ->.
  intros [(σ1 & Hloop & -> & [= ->])|(e & _ & _ & [=])]%(finish_pass_cases
    client (skips_of p)
    (λ t, matches_filters t (name_filter config) (tag_filters config))
    create_duplicate_task (body_of client config p)
    (body_of_iteration client config p)).
  - by exists σ1.
  - intros task. apply matches_filters_not_api.
Qed.

(** The body of the loop on a task that is accounted for. *)
Lemma body_of_accounted p task σ :
  accounted (skips_of p) (processed_task_ids σ) task →
  body_of client config p task σ = (only_counted σ, Return ()).
Proof.
  intros [[Hskips Hid]|(k & Hk & Hin)].
  - destruct p; try discriminate Hskips. cbn [body_of].
    unfold DuplicateCompletedTasks.loop_body. run_monad. by rewrite Hid.
  - destruct p; cbn [body_of].
    + by eapply duplicate_completed_tasks_skips.
    + by eapply task_duplicator_skips.
    + by eapply task_duplicator_skips.
Qed.

Lemma for_each_accounted p tasks σ :
  Forall (accounted (skips_of p) (processed_task_ids σ)) tasks →
  for_each tasks (body_of client config p) σ =
    (mkSt (remote σ) (state_file σ) (processed_task_ids σ)
       (mkStats (List.length tasks + checked (stats σ)) (matched (stats σ))
          (duplicated (stats σ)) (errors (stats σ)))
       (trace σ),
     Return ()).
Proof.
  revert σ. induction tasks as [|task tasks IH]; intros σ Hall.
  - by destruct σ as [? ? ? []].
  - apply Forall_cons in Hall as [Hhead Hall]. cbn [for_each]. unfold bind.
    rewrite (body_of_accounted p task σ Hhead).
    rewrite IH by done. cbn. do 3 f_equal. lia.
Qed.
End ModeAAttended.

(** X13: after a pass that returned, every fetched task is accounted
    for in the state file (its identifier is there, or the script left it
    alone for want of a valid identifier), or [create_task] was called
    for it with the payload of the transformer and at least one error
    was counted.  Nothing fetched is passed over in silence. *)
Theorem every_fetched_task_is_attended {R} (client : TickTickClient R)
    (config : Config) (p : mode_a_pass) (σ σ' : St R) (r' : R)
    (tasks : list dict) (s : Stats) :
  get_completed_tasks client (remote σ) = (r', Return tasks) →
  run_pass client config p σ = (σ', Return s) →
  ∃ evs, events_between σ σ' evs ∧
    ∀ task, task ∈ tasks →
      accounted (skips_of p) (stored_ids (state_file σ')) task ∨
      (EvCreate task (create_duplicate_task task) ∈ evs ∧ (0 < errors s)%nat).
Proof.
  intros Hfetch Hpass.
  destruct (run_pass_returns client config p σ σ' r' tasks s Hfetch Hpass)
    as (σ1 & Hloop & -> & ->).
  apply iterations_attended in Hloop as (evs & Hevs & Hall).
  exists (evs ++ [EvSave (processed_task_ids σ1)]). split.
  { unfold events_between in *. cbn in *. by rewrite Hevs, app_assoc. }
  intros task Hin. rewrite Forall_forall in Hall.
  destruct (Hall _ Hin) as [Hacc|[Hev Hlt]]; [by left|right].
  split; [|cbn in Hlt; lia]. apply elem_of_app. by left.
Qed.

Lemma every_fetched_task_is_attended_witness :
  accounted true
    (stored_ids (state_file
       (run_pass (serving [milk]) zap_config script_pass first_run).1)) milk ∨
  (∃ evs : list event, EvCreate milk (create_duplicate_task milk) ∈ evs).
Proof.
  assert (Hres : (run_pass (serving [milk]) zap_config script_pass first_run).2 =
                 Return (mkStats 1 1 1 0)) by (vm_compute; reflexivity).
  pose proof (surjective_pairing
                (run_pass (serving [milk]) zap_config script_pass first_run)) as Hrun.
  rewrite Hres in Hrun.
  destruct (every_fetched_task_is_attended (serving [milk]) zap_config script_pass
              first_run _ 0%nat [milk] _ eq_refl Hrun) as (evs & _ & Hall).
  destruct (Hall milk) as [Hacc|[Hev _]].
  - by apply list_elem_of_singleton.
  - left. exact Hacc.
  - right. exists evs. exact Hev.
Defined.

(** X14: a pass that returned without counting an error is not redone.
    Run again on a remote service that reports any tasks with the
    identifiers of those fetched before (the same tasks, or the same
    modified: only "id" is looked at), the pass calls neither the filter
    nor [create_task]: it counts the tasks, writes the same processed set
    to the state file and returns checked = the number of tasks, the
    other counters at 0. *)
Theorem error_free_pass_is_not_redone {R} (client : TickTickClient R)
    (config : Config) (p : mode_a_pass) (σ σ1 : St R) (r1 r2 r2' : R)
    (tasks tasks2 : list dict) (s1 : Stats) :
  get_completed_tasks client (remote σ) = (r1, Return tasks) →
  run_pass client config p σ = (σ1, Return s1) →
  errors s1 = 0%nat →
  get_completed_tasks client r2 = (r2', Return tasks2) →
  Forall (λ t2, ∃ t, t ∈ tasks ∧ dict_get t2 "id" JNull = dict_get t "id" JNull)
    tasks2 →
  run_pass client config p (with_remote r2 σ1) =
    (mkSt r2' (Some (processed_task_ids σ1)) (processed_task_ids σ1)
       (mkStats (List.length tasks2) 0 0 0)
       (trace σ1 ++ [EvSave (processed_task_ids σ1)]),
     Return (mkStats (List.length tasks2) 0 0 0)).
Proof.
  intros Hfetch Hpass Herr Hfetch2 Hsame.
  destruct (run_pass_returns client config p σ σ1 r1 tasks s1 Hfetch Hpass)
    as (σl & Hloop & -> & ->).
  pose proof (iterations_count _ _ _ _ _ _ _ Hloop) as (_ & _ & _ & _ & Hle & _).
  apply iterations_attended in Hloop as (evs & _ & Hall).
  assert (Hacc : Forall (accounted (skips_of p) (processed_task_ids σl)) tasks2).
  { rewrite Forall_forall in Hall. eapply Forall_impl; [exact Hsame|].
    intros t2 (t & Hin & Hid).
    destruct (Hall _ Hin) as [Hacc|[_ Hlt]]; [|cbn in Hlt; lia].
    unfold accounted, task_key in *. by rewrite Hid. }
  rewrite run_pass_shape. unfold pass_of. cbn [with_remote remote].
  rewrite Hfetch2.
  assert (record_at_start p
            (with_remote r2
               (mkSt (remote σl) (Some (processed_task_ids σl))
                  (processed_task_ids σl) (stats σl)
                  (trace σl ++ [EvSave (processed_task_ids σl)]))) =
          processed_task_ids σl) as -> by by destruct p.
  rewrite for_each_accounted by done. cbn.
  by rewrite Nat.add_0_r.
Qed.

Lemma error_free_pass_is_not_redone_witness :
  let σ1 := (run_pass (serving [milk; bread]) zap_config script_pass first_run).1 in
  run_pass (serving [milk; bread]) zap_config script_pass (with_remote 2%nat σ1) =
  (mkSt 2%nat (Some (processed_task_ids σ1)) (processed_task_ids σ1)
     (mkStats 2 0 0 0) (trace σ1 ++ [EvSave (processed_task_ids σ1)]),
   Return (mkStats 2 0 0 0)).
Proof.
  intros σ1.
  assert (Hres : (run_pass (serving [milk; bread]) zap_config script_pass first_run).2 =
                 Return (mkStats 2 2 2 0)) by (vm_compute; reflexivity).
  pose proof (surjective_pairing
                (run_pass (serving [milk; bread]) zap_config script_pass first_run))
    as Hrun.
  rewrite Hres in Hrun.
  apply (error_free_pass_is_not_redone (serving [milk; bread]) zap_config
           script_pass first_run σ1 0%nat 2%nat 2%nat [milk; bread] [milk; bread]
           (mkStats 2 2 2 0) eq_refl Hrun eq_refl eq_refl).
  repeat constructor; [exists milk|exists bread]; (split; [|reflexivity]).
  - apply elem_of_cons. by left.
  - apply elem_of_cons. right. by apply list_elem_of_singleton.
Defined.

(** ** The script and the class *)




